(** * Process metrics: a shallow embedding of [src/process.cpp]

    The translation unit selects one of four implementations of the class
    [ttldtor::process::Process] with the preprocessor ([WIN32], [__linux__],
    [__APPLE__ && __MACH__], otherwise).  Each of them is embedded below in
    a module of its own; the operating system is an explicit argument (the
    values its calls write back, or the fact that a call failed), so that a
    query is a function of what the system reported. *)

From Stdlib Require Import ZArith List String Ascii Bool Arith Lia.
Import ListNotations.

Local Open Scope string_scope.
Local Open Scope Z_scope.

(** ** Machine integers

    [std::uint64_t] values are integers in [0, 2^64); a conversion to
    [std::uint64_t] and every arithmetic operation on it reduce modulo
    [2^64].  The representation of [std::chrono::milliseconds] is a signed
    64-bit integer: a conversion to it keeps the low 64 bits, read in two's
    complement. *)

Definition UINT64_MOD : Z := 2 ^ 64.
Definition UINT32_MOD : Z := 2 ^ 32.
Definition LLONG_MAX : Z := 2 ^ 63 - 1.
Definition LLONG_MIN : Z := - 2 ^ 63.

Definition to_uint64 (z : Z) : Z := z mod UINT64_MOD.
Definition to_int64 (z : Z) : Z := (z + 2 ^ 63) mod UINT64_MOD - 2 ^ 63.

Definition add64 (a b : Z) : Z := to_uint64 (a + b).
Definition mul64 (a b : Z) : Z := to_uint64 (a * b).
Definition shl64 (a : Z) (n : Z) : Z := to_uint64 (Z.shiftl a n).

Definition is_uint32 (z : Z) : Prop := 0 <= z < UINT32_MOD.
Definition is_uint64 (z : Z) : Prop := 0 <= z < UINT64_MOD.

(** [std::chrono::milliseconds(x)] for an unsigned 64-bit [x], and the sum
    of two durations: an addition of their signed representations, which
    C++ leaves undefined when it overflows and which is taken here to wrap
    around as the hardware does. *)
Definition milliseconds (x : Z) : Z := to_int64 x.
Definition ms_add (a b : Z) : Z := to_int64 (a + b).

(** ** Outcomes

    What a C++ expression can do besides returning: throw one of the two
    exceptions of [std::stoll] and [std::string::substr], or stop the
    process on an integer division by zero. *)

Inductive failure : Type :=
| invalid_argument
| out_of_range
| divide_error.

Inductive outcome (A : Type) : Type :=
| Returns (a : A)
| Raises (f : failure).

Arguments Returns {A} a.
Arguments Raises {A} f.

Definition bind {A B : Type} (m : outcome A) (k : A -> outcome B) : outcome B :=
  match m with
  | Returns a => k a
  | Raises f => Raises f
  end.

Notation "x <- m ;; k" := (bind m (fun x => k))
  (at level 61, m at next level, right associativity).

(** [try { body } catch (...) { handler }]; the bodies it is used on can
    only throw. *)
Definition try_catch {A : Type} (body : outcome A) (handler : A) : A :=
  match body with
  | Returns a => a
  | Raises _ => handler
  end.

(** ** The part of [std::string] the parser uses *)

Module StdString.

(** Membership of a character in a character set given as a string. *)
Fixpoint mem (c : ascii) (chars : string) : bool :=
  match chars with
  | EmptyString => false
  | String d chars' => if Ascii.eqb c d then true else mem c chars'
  end.

(** [s.find(key)]: the lowest position at which [key] occurs in [s];
    [None] is [std::string::npos]. *)
Fixpoint find (s key : string) : option nat :=
  if String.prefix key s then Some 0%nat
  else match s with
       | EmptyString => None
       | String _ s' => option_map S (find s' key)
       end.

(** [s.find_first_of(chars, pos)]: the lowest position [>= pos] holding a
    character of [chars]. *)
Fixpoint find_first_of (s chars : string) (pos : nat) : option nat :=
  match s with
  | EmptyString => None
  | String c s' =>
      match pos with
      | O => if mem c chars then Some 0%nat
             else option_map S (find_first_of s' chars 0)
      | S pos' => option_map S (find_first_of s' chars pos')
      end
  end.

(** [s.substr(pos)]: the suffix from [pos]; throws [std::out_of_range]
    when [pos > s.size()]. *)
Fixpoint substr (s : string) (pos : nat) : outcome string :=
  match pos with
  | O => Returns s
  | S pos' =>
      match s with
      | EmptyString => Raises out_of_range
      | String _ s' => substr s' pos'
      end
  end.

Definition isspace (c : ascii) : bool :=
  let n := nat_of_ascii c in
  ((9 <=? n) && (n <=? 13) || (n =? 32))%nat.

Definition isdigit (c : ascii) : bool :=
  let n := nat_of_ascii c in
  ((48 <=? n) && (n <=? 57))%nat.

Definition digit_value (c : ascii) : Z := Z.of_nat (nat_of_ascii c) - 48.

Fixpoint skip_space (s : string) : string :=
  match s with
  | String c s' => if isspace c then skip_space s' else s
  | EmptyString => s
  end.

(** The longest prefix of [s] made of decimal digits, and what follows. *)
Fixpoint digit_run (s : string) : string :=
  match s with
  | String c s' => if isdigit c then String c (digit_run s') else EmptyString
  | EmptyString => EmptyString
  end.

Fixpoint after_digit_run (s : string) : string :=
  match s with
  | String c s' => if isdigit c then after_digit_run s' else s
  | EmptyString => s
  end.

(** The number a string of digits denotes in base ten, most significant
    digit first. *)
Fixpoint decimal_from (acc : Z) (ds : string) : Z :=
  match ds with
  | EmptyString => acc
  | String c ds' => decimal_from (acc * 10 + digit_value c) ds'
  end.

Definition decimal (ds : string) : Z := decimal_from 0 ds.

(** [std::stoll(str)] (base ten, no position out-parameter): leading
    white space is skipped, one sign is accepted, the longest run of
    digits is converted; [std::invalid_argument] when there is no digit,
    [std::out_of_range] when the number does not fit a [long long]. *)
Definition stoll (str : string) : outcome Z :=
  let t := skip_space str in
  let '(negative, u) :=
    match t with
    | String c u =>
        if Ascii.eqb c "-"%char then (true, u)
        else if Ascii.eqb c "+"%char then (false, u)
        else (false, t)
    | EmptyString => (false, t)
    end in
  let ds := digit_run u in
  match ds with
  | EmptyString => Raises invalid_argument
  | String _ _ =>
      let v := if negative then - decimal ds else decimal ds in
      if (LLONG_MIN <=? v) && (v <=? LLONG_MAX) then Returns v
      else Raises out_of_range
  end.

(** [std::getline(stream, s)] on the unread part of a stream: the characters
    up to the next line feed (which is consumed and dropped) or to the end
    of the input; it fails exactly when nothing is left to read. *)
Fixpoint getline (input : string) : option (string * string) :=
  match input with
  | EmptyString => None
  | String c is' =>
      if Ascii.eqb c "010"%char then Some (EmptyString, is')
      else match getline is' with
           | None => Some (String c EmptyString, EmptyString)
           | Some (l, rest) => Some (String c l, rest)
           end
  end.

(** All the lines successive [getline] calls deliver. *)
Fixpoint read_lines (input : string) : list string :=
  match input with
  | EmptyString => []
  | String c is' =>
      if Ascii.eqb c "010"%char then EmptyString :: read_lines is'
      else match read_lines is' with
           | [] => [String c EmptyString]
           | l :: ls => String c l :: ls
           end
  end.

(** The line feed that ends a line of a text file. *)
Definition LF : string := String "010"%char EmptyString.

End StdString.

(** ** Linux: [struct Parser] *)

Module Parser.

Inductive ParseResultType : Type := KEY_NOT_FOUND | VALUE_NOT_FOUND | OK.

Record ParseStatusResult : Type := mkResult {
  resultType : ParseResultType;
  value : Z
}.

Definition parseStatus (s key : string) : ParseStatusResult :=
  match StdString.find s key with
  | Some foundKeyPos =>
      match StdString.find_first_of s "0123456789" (foundKeyPos + 6) with
      | Some foundValuePos =>
          try_catch
            (sub <- StdString.substr s foundValuePos ;;
             n <- StdString.stoll sub ;;
             Returns (mkResult OK (to_uint64 n)))
            (mkResult OK 0)
      | None => mkResult VALUE_NOT_FOUND 0
      end
  | None => mkResult KEY_NOT_FOUND 0
  end.

End Parser.

(** ** Linux ([#elif defined(__linux__)]) *)

Module Linux.

(** [struct timeval]: [time_t tv_sec] and [suseconds_t tv_usec], both signed
    64-bit; [struct rusage] holds many fields, of which the code reads the
    two times. *)
Record timeval : Type := mkTimeval { tv_sec : Z; tv_usec : Z }.
Record rusage : Type := mkRusage { ru_utime : timeval; ru_stime : timeval }.

(** [rusage ru{}] *)
Definition rusage_zero : rusage := mkRusage (mkTimeval 0 0) (mkTimeval 0 0).

(** What the system answers: the structure [getrusage(RUSAGE_SELF, &ru)]
    fills in ([None]: the call fails and leaves [ru] as it was), and the
    text of [/proc/self/status] ([None]: the file cannot be opened). *)
Record OS : Type := mkOS {
  getrusage : option rusage;
  proc_self_status : option string
}.

Record RUsageResult : Type := mkRUsageResult {
  sysTime : Z;
  userTime : Z;
  totalTime : Z
}.

(** [explicit RUsageResult(const rusage &ru)] *)
Definition RUsageResult_of (ru : rusage) : RUsageResult :=
  let sysTime :=
    milliseconds (add64 (mul64 (to_uint64 (tv_sec (ru_stime ru))) 1000)
                        (to_uint64 (tv_usec (ru_stime ru)) / 1000)) in
  let userTime :=
    milliseconds (add64 (mul64 (to_uint64 (tv_sec (ru_utime ru))) 1000)
                        (to_uint64 (tv_usec (ru_utime ru)) / 1000)) in
  mkRUsageResult sysTime userTime (ms_add sysTime userTime).

(** [rusage ru{}; getrusage(RUSAGE_SELF, &ru);] *)
Definition call_getrusage (os : OS) : rusage :=
  match getrusage os with
  | Some ru => ru
  | None => rusage_zero
  end.

Definition getKernelProcessorTime (os : OS) : Z :=
  sysTime (RUsageResult_of (call_getrusage os)).

Definition getUserProcessorTime (os : OS) : Z :=
  userTime (RUsageResult_of (call_getrusage os)).

Definition getTotalProcessorTime (os : OS) : Z :=
  totalTime (RUsageResult_of (call_getrusage os)).

(** The [while (!std::getline(is, s).fail())] loop of the two memory
    queries, on the lines still unread.  It returns the value of the query
    together with the lines it has left unread. *)
Fixpoint scan (key : string) (lines : list string) : Z * list string :=
  match lines with
  | [] => (0, [])
  | s :: rest =>
      let result := Parser.parseStatus s key in
      match Parser.resultType result with
      | Parser.KEY_NOT_FOUND => scan key rest
      | _ => (mul64 (Parser.value result) 1024, rest)
      end
  end.

(** A memory query: the value, and how the stream was used ([None]: it was
    never read; [Some rest]: the lines [rest] were left unread). *)
Definition memory_query (key : string) (os : OS) : Z * option (list string) :=
  match proc_self_status os with
  | None => (0, None)
  | Some content =>
      let '(v, rest) := scan key (StdString.read_lines content) in
      (v, Some rest)
  end.

Definition getWorkingSetSize (os : OS) : Z := fst (memory_query "VmRSS:" os).

Definition getPrivateMemorySize (os : OS) : Z := fst (memory_query "VmSize:" os).

End Linux.

(** ** Windows ([#ifdef WIN32]) *)

Module Win32.

(** [FILETIME]: two [DWORD]s (unsigned 32-bit). *)
Record FILETIME : Type := mkFILETIME { dwLowDateTime : Z; dwHighDateTime : Z }.

(** [FILETIME t{}] *)
Definition FILETIME_zero : FILETIME := mkFILETIME 0 0.

(** The four blocks [GetProcessTimes] writes. *)
Record ProcessTimes : Type := mkProcessTimes {
  creationTime : FILETIME;
  exitTime : FILETIME;
  kernelTime : FILETIME;
  userTime : FILETIME
}.

(** The fields of [PROCESS_MEMORY_COUNTERS_EX] the code reads ([SIZE_T]). *)
Record PROCESS_MEMORY_COUNTERS_EX : Type := mkCounters {
  WorkingSetSize : Z;
  PrivateUsage : Z
}.

(** What the system answers; [None]: the call fails and leaves the
    zero-initialised structures as they were. *)
Record OS : Type := mkOS {
  GetProcessTimes : option ProcessTimes;
  GetProcessMemoryInfo : option PROCESS_MEMORY_COUNTERS_EX
}.

Definition call_GetProcessTimes (os : OS) : ProcessTimes :=
  match GetProcessTimes os with
  | Some t => t
  | None => mkProcessTimes FILETIME_zero FILETIME_zero FILETIME_zero FILETIME_zero
  end.

Definition call_GetProcessMemoryInfo (os : OS) : PROCESS_MEMORY_COUNTERS_EX :=
  match GetProcessMemoryInfo os with
  | Some c => c
  | None => mkCounters 0 0
  end.

(** [sizeof(t.dwLowDateTime)] *)
Definition sizeof_DWORD : Z := 4.

(** [static_cast<std::uint64_t>(t.dwLowDateTime) |
     (static_cast<std::uint64_t>(t.dwHighDateTime) << (sizeof(t.dwLowDateTime) * 8ULL))] *)
Definition ticks (t : FILETIME) : Z :=
  Z.lor (to_uint64 (dwLowDateTime t))
        (shl64 (to_uint64 (dwHighDateTime t)) (sizeof_DWORD * 8)).

Definition getKernelProcessorTime (os : OS) : Z :=
  let kernelTime2 := ticks (kernelTime (call_GetProcessTimes os)) in
  milliseconds (kernelTime2 / 10000).

Definition getUserProcessorTime (os : OS) : Z :=
  let userTime2 := ticks (userTime (call_GetProcessTimes os)) in
  milliseconds (userTime2 / 10000).

Definition getTotalProcessorTime (os : OS) : Z :=
  let kernelTime2 := ticks (kernelTime (call_GetProcessTimes os)) in
  let userTime2 := ticks (userTime (call_GetProcessTimes os)) in
  milliseconds (add64 kernelTime2 userTime2 / 10000).

Definition getWorkingSetSize (os : OS) : Z :=
  to_uint64 (WorkingSetSize (call_GetProcessMemoryInfo os)).

Definition getPrivateMemorySize (os : OS) : Z :=
  to_uint64 (PrivateUsage (call_GetProcessMemoryInfo os)).

End Win32.

(** ** macOS ([#elif defined(__APPLE__) && defined(__MACH__)]) *)

Module Apple.

(** [mach_timebase_info_data_t]: two unsigned 32-bit words. *)
Record mach_timebase_info_data_t : Type := mkTimebase { numer : Z; denom : Z }.

(** The fields of [rusage_info_v2] the code reads (unsigned 64-bit). *)
Record rusage_info_v2 : Type := mkRusageInfo {
  ri_user_time : Z;
  ri_system_time : Z
}.

(** The fields of [proc_taskallinfo::ptinfo] the code reads. *)
Record proc_taskinfo : Type := mkTaskInfo {
  pti_virtual_size : Z;
  pti_resident_size : Z
}.

(** What the system answers.  [proc_pid_rusage] and [proc_pidinfo]: [None]
    when the call fails and leaves the zero-initialised structure as it
    was.  [mach_timebase_info]: the descriptor the call leaves in the
    static [time_base]. *)
Record OS : Type := mkOS {
  proc_pid_rusage : option rusage_info_v2;
  proc_pidinfo : option proc_taskinfo;
  mach_timebase_info : mach_timebase_info_data_t
}.

(** The function-local [static mach_timebase_info_data_t time_base] before
    the first call. *)
Definition time_base_initial : mach_timebase_info_data_t := mkTimebase 0 0.

Definition NSEC_TO_MSEC_RATIO : Z := 1000000.

(** An unsigned division; the process stops when the divisor is zero. *)
Definition div64 (a b : Z) : outcome Z :=
  if b =? 0 then Raises divide_error else Returns (a / b).

Record ProcPidRUsageResult : Type := mkProcPidRUsageResult {
  sysTime : Z;
  userTime : Z;
  totalTime : Z
}.

(** [if (time_base.denom == 0) mach_timebase_info(&time_base);] *)
Definition init_time_base (os : OS) (time_base : mach_timebase_info_data_t)
  : mach_timebase_info_data_t :=
  if denom time_base =? 0 then mach_timebase_info os else time_base.

(** [explicit ProcPidRUsageResult(const rusage_info_v2 &)], as a function of
    the static [time_base] it finds; it returns the static it leaves. *)
Definition ProcPidRUsageResult_of (os : OS) (time_base : mach_timebase_info_data_t)
    (rusage_info_data : rusage_info_v2)
  : mach_timebase_info_data_t * outcome ProcPidRUsageResult :=
  let time_base := init_time_base os time_base in
  (time_base,
   sys_ns <- div64 (mul64 (to_uint64 (ri_system_time rusage_info_data)) (numer time_base))
                   (denom time_base) ;;
   let sysTime := milliseconds (sys_ns / NSEC_TO_MSEC_RATIO) in
   user_ns <- div64 (mul64 (to_uint64 (ri_user_time rusage_info_data)) (numer time_base))
                    (denom time_base) ;;
   let userTime := milliseconds (user_ns / NSEC_TO_MSEC_RATIO) in
   Returns (mkProcPidRUsageResult sysTime userTime (ms_add sysTime userTime))).

Definition call_proc_pid_rusage (os : OS) : rusage_info_v2 :=
  match proc_pid_rusage os with
  | Some r => r
  | None => mkRusageInfo 0 0
  end.

Definition call_proc_pidinfo (os : OS) : proc_taskinfo :=
  match proc_pidinfo os with
  | Some i => i
  | None => mkTaskInfo 0 0
  end.

Definition time_query (field : ProcPidRUsageResult -> Z) (os : OS)
    (time_base : mach_timebase_info_data_t)
  : mach_timebase_info_data_t * outcome Z :=
  let '(time_base', r) := ProcPidRUsageResult_of os time_base (call_proc_pid_rusage os) in
  (time_base', x <- r ;; Returns (field x)).

Definition getKernelProcessorTime := time_query sysTime.
Definition getUserProcessorTime := time_query userTime.
Definition getTotalProcessorTime := time_query totalTime.

Definition getWorkingSetSize (os : OS) : Z :=
  to_uint64 (pti_resident_size (call_proc_pidinfo os)).

Definition getPrivateMemorySize (os : OS) : Z :=
  to_uint64 (pti_virtual_size (call_proc_pidinfo os)).

End Apple.

(** ** Any other platform ([#else]) *)

Module Other.

Definition getKernelProcessorTime : Z := milliseconds 0.
Definition getUserProcessorTime : Z := milliseconds 0.
Definition getTotalProcessorTime : Z := milliseconds 0.
Definition getWorkingSetSize : Z := 0.
Definition getPrivateMemorySize : Z := 0.

End Other.

(** ** The class [Process]

    The build picks one implementation; a [Target] is that choice together
    with the system the program then runs on (and, on macOS, the current
    content of the static [time_base]). *)

Inductive Target : Type :=
| OnWin32 (os : Win32.OS)
| OnLinux (os : Linux.OS)
| OnApple (os : Apple.OS) (time_base : Apple.mach_timebase_info_data_t)
| OnOther.

Inductive Query : Type :=
| KernelProcessorTime
| UserProcessorTime
| TotalProcessorTime
| WorkingSetSize
| PrivateMemorySize.

Module Process.

Definition getKernelProcessorTime (t : Target) : outcome Z :=
  match t with
  | OnWin32 os => Returns (Win32.getKernelProcessorTime os)
  | OnLinux os => Returns (Linux.getKernelProcessorTime os)
  | OnApple os tb => snd (Apple.getKernelProcessorTime os tb)
  | OnOther => Returns Other.getKernelProcessorTime
  end.

Definition getUserProcessorTime (t : Target) : outcome Z :=
  match t with
  | OnWin32 os => Returns (Win32.getUserProcessorTime os)
  | OnLinux os => Returns (Linux.getUserProcessorTime os)
  | OnApple os tb => snd (Apple.getUserProcessorTime os tb)
  | OnOther => Returns Other.getUserProcessorTime
  end.

Definition getTotalProcessorTime (t : Target) : outcome Z :=
  match t with
  | OnWin32 os => Returns (Win32.getTotalProcessorTime os)
  | OnLinux os => Returns (Linux.getTotalProcessorTime os)
  | OnApple os tb => snd (Apple.getTotalProcessorTime os tb)
  | OnOther => Returns Other.getTotalProcessorTime
  end.

Definition getWorkingSetSize (t : Target) : outcome Z :=
  match t with
  | OnWin32 os => Returns (Win32.getWorkingSetSize os)
  | OnLinux os => Returns (Linux.getWorkingSetSize os)
  | OnApple os _ => Returns (Apple.getWorkingSetSize os)
  | OnOther => Returns Other.getWorkingSetSize
  end.

Definition getPrivateMemorySize (t : Target) : outcome Z :=
  match t with
  | OnWin32 os => Returns (Win32.getPrivateMemorySize os)
  | OnLinux os => Returns (Linux.getPrivateMemorySize os)
  | OnApple os _ => Returns (Apple.getPrivateMemorySize os)
  | OnOther => Returns Other.getPrivateMemorySize
  end.

Definition run (q : Query) : Target -> outcome Z :=
  match q with
  | KernelProcessorTime => getKernelProcessorTime
  | UserProcessorTime => getUserProcessorTime
  | TotalProcessorTime => getTotalProcessorTime
  | WorkingSetSize => getWorkingSetSize
  | PrivateMemorySize => getPrivateMemorySize
  end.

End Process.

(** ** The loops of the queries, call by call

    The reading loop of the Linux memory queries on the raw text of the
    stream, one [std::getline] per iteration; [fuel] bounds the number of
    iterations, and [None] means that the bound was reached. *)

Module LinuxStream.

Fixpoint scan_stream (fuel : nat) (key : string) (input : string) : option Z :=
  match fuel with
  | O => None
  | S fuel' =>
      match StdString.getline input with
      | None => Some 0
      | Some (s, rest) =>
          let result := Parser.parseStatus s key in
          match Parser.resultType result with
          | Parser.KEY_NOT_FOUND => scan_stream fuel' key rest
          | _ => Some (mul64 (Parser.value result) 1024)
          end
      end
  end.

End LinuxStream.

(** A series of time queries on macOS, each with the system as it then is:
    every call runs the constructor on the static [time_base] the call
    before has left.  A call that divides by zero stops the process, and
    no later call runs; otherwise the series returns the static its last
    call has left. *)

Module AppleCalls.

Fixpoint time_base_after (calls : list Apple.OS)
    (time_base : Apple.mach_timebase_info_data_t)
  : outcome Apple.mach_timebase_info_data_t :=
  match calls with
  | [] => Returns time_base
  | os :: later =>
      let '(time_base', r) :=
        Apple.ProcPidRUsageResult_of os time_base (Apple.call_proc_pid_rusage os) in
      bind r (fun _ => time_base_after later time_base')
  end.

End AppleCalls.

(** * Vocabulary of the statements *)

(** ** Strings *)

Module StringSpec.
Import StdString.

(** [key] occurs in [s], at any position. *)
Definition occurs (key s : string) : Prop :=
  exists pre post, s = (pre ++ key ++ post)%string.

Definition all_digits (ds : string) : Prop :=
  forall i c, String.get i ds = Some c -> isdigit c = true.

Definition starts_with_digit (s : string) : bool :=
  match s with
  | String c _ => isdigit c
  | EmptyString => false
  end.

(** [run] is the maximal digit run at the head of [s]: [s] is [run] followed
    by a rest that does not go on with a digit. *)
Definition maximal_digit_run (run s : string) : Prop :=
  all_digits run /\
  exists rest, s = (run ++ rest)%string /\ starts_with_digit rest = false.

End StringSpec.

(** ** Values the systems report

    The fields of the system structures are integers of a fixed width, and
    the times a system reports for a process are far from the ends of these
    types.  The predicates below say so; the statements about processor
    times assume them where the arithmetic of the code could otherwise wrap
    around. *)

Module Ranges.

(** A [timeval] with non-negative fields whose milliseconds fit the
    representation of [std::chrono::milliseconds]. *)
Definition timeval_in_range (tv : Linux.timeval) : Prop :=
  0 <= Linux.tv_sec tv /\
  0 <= Linux.tv_usec tv <= LLONG_MAX /\
  Linux.tv_sec tv * 1000 + Linux.tv_usec tv / 1000 <= LLONG_MAX.

Definition rusage_in_range (ru : Linux.rusage) : Prop :=
  timeval_in_range (Linux.ru_stime ru) /\
  timeval_in_range (Linux.ru_utime ru) /\
  (Linux.tv_sec (Linux.ru_stime ru) * 1000 + Linux.tv_usec (Linux.ru_stime ru) / 1000) +
  (Linux.tv_sec (Linux.ru_utime ru) * 1000 + Linux.tv_usec (Linux.ru_utime ru) / 1000)
  <= LLONG_MAX.

(** A [FILETIME] made of two 32-bit words, and the number of 100 ns ticks
    it stands for. *)
Definition FILETIME_in_range (t : Win32.FILETIME) : Prop :=
  is_uint32 (Win32.dwLowDateTime t) /\ is_uint32 (Win32.dwHighDateTime t).

Definition FILETIME_ticks (t : Win32.FILETIME) : Z :=
  Win32.dwLowDateTime t + Win32.dwHighDateTime t * 2 ^ 32.

Definition ProcessTimes_in_range (t : Win32.ProcessTimes) : Prop :=
  FILETIME_in_range (Win32.kernelTime t) /\
  FILETIME_in_range (Win32.userTime t) /\
  FILETIME_ticks (Win32.kernelTime t) + FILETIME_ticks (Win32.userTime t) < UINT64_MOD.

(** A time base with a non-zero denominator, and tick counts whose
    conversion to nanoseconds stays below [2^64]. *)
Definition timebase_in_range (tb : Apple.mach_timebase_info_data_t) : Prop :=
  is_uint32 (Apple.numer tb) /\ is_uint32 (Apple.denom tb) /\ Apple.denom tb <> 0.

Definition rusage_info_in_range (tb : Apple.mach_timebase_info_data_t)
    (r : Apple.rusage_info_v2) : Prop :=
  is_uint64 (Apple.ri_system_time r) /\
  is_uint64 (Apple.ri_user_time r) /\
  Apple.ri_system_time r * Apple.numer tb < UINT64_MOD /\
  Apple.ri_user_time r * Apple.numer tb < UINT64_MOD.

(** The nanoseconds and milliseconds the macOS code derives from a tick
    count [x] with the time base [tb]. *)
Definition Apple_ms (tb : Apple.mach_timebase_info_data_t) (x : Z) : Z :=
  (mul64 (to_uint64 x) (Apple.numer tb) / Apple.denom tb) / Apple.NSEC_TO_MSEC_RATIO.

(** The times a target reports are in range. *)
Definition times_in_range (t : Target) : Prop :=
  match t with
  | OnWin32 os => ProcessTimes_in_range (Win32.call_GetProcessTimes os)
  | OnLinux os => rusage_in_range (Linux.call_getrusage os)
  | OnApple os tb =>
      timebase_in_range (Apple.init_time_base os tb) /\
      rusage_info_in_range (Apple.init_time_base os tb) (Apple.call_proc_pid_rusage os)
  | OnOther => True
  end.

(** The time a raw structure stands for: the microseconds of a [timeval]
    (the ticks of a [FILETIME] are [FILETIME_ticks] above). *)
Definition timeval_microseconds (tv : Linux.timeval) : Z :=
  Linux.tv_sec tv * 1000000 + Linux.tv_usec tv.

(** The second target is the first one at a later call: the same platform,
    and each of the kernel and the user time the system reports, as the
    time its raw fields stand for, is at least what it was.  On macOS the
    second call finds the static [time_base] as the first call left it. *)
Definition snapshot_le (t1 t2 : Target) : Prop :=
  match t1, t2 with
  | OnWin32 os1, OnWin32 os2 =>
      FILETIME_ticks (Win32.kernelTime (Win32.call_GetProcessTimes os1))
      <= FILETIME_ticks (Win32.kernelTime (Win32.call_GetProcessTimes os2)) /\
      FILETIME_ticks (Win32.userTime (Win32.call_GetProcessTimes os1))
      <= FILETIME_ticks (Win32.userTime (Win32.call_GetProcessTimes os2))
  | OnLinux os1, OnLinux os2 =>
      timeval_microseconds (Linux.ru_stime (Linux.call_getrusage os1))
      <= timeval_microseconds (Linux.ru_stime (Linux.call_getrusage os2)) /\
      timeval_microseconds (Linux.ru_utime (Linux.call_getrusage os1))
      <= timeval_microseconds (Linux.ru_utime (Linux.call_getrusage os2))
  | OnApple os1 tb1, OnApple os2 tb2 =>
      tb2 = Apple.init_time_base os1 tb1 /\
      Apple.ri_system_time (Apple.call_proc_pid_rusage os1)
      <= Apple.ri_system_time (Apple.call_proc_pid_rusage os2) /\
      Apple.ri_user_time (Apple.call_proc_pid_rusage os1)
      <= Apple.ri_user_time (Apple.call_proc_pid_rusage os2)
  | OnOther, OnOther => True
  | _, _ => False
  end.

(** The same with every raw field compared on its own: each word of a
    [FILETIME], the seconds and the microseconds of a [timeval].  It is a
    special case of [snapshot_le]. *)
Definition timeval_le (a b : Linux.timeval) : Prop :=
  Linux.tv_sec a <= Linux.tv_sec b /\ Linux.tv_usec a <= Linux.tv_usec b.

Definition FILETIME_le (a b : Win32.FILETIME) : Prop :=
  Win32.dwLowDateTime a <= Win32.dwLowDateTime b /\
  Win32.dwHighDateTime a <= Win32.dwHighDateTime b.

Definition snapshot_fields_le (t1 t2 : Target) : Prop :=
  match t1, t2 with
  | OnWin32 os1, OnWin32 os2 =>
      FILETIME_le (Win32.kernelTime (Win32.call_GetProcessTimes os1))
                  (Win32.kernelTime (Win32.call_GetProcessTimes os2)) /\
      FILETIME_le (Win32.userTime (Win32.call_GetProcessTimes os1))
                  (Win32.userTime (Win32.call_GetProcessTimes os2))
  | OnLinux os1, OnLinux os2 =>
      timeval_le (Linux.ru_stime (Linux.call_getrusage os1))
                 (Linux.ru_stime (Linux.call_getrusage os2)) /\
      timeval_le (Linux.ru_utime (Linux.call_getrusage os1))
                 (Linux.ru_utime (Linux.call_getrusage os2))
  | OnApple os1 tb1, OnApple os2 tb2 =>
      tb2 = Apple.init_time_base os1 tb1 /\
      Apple.ri_system_time (Apple.call_proc_pid_rusage os1)
      <= Apple.ri_system_time (Apple.call_proc_pid_rusage os2) /\
      Apple.ri_user_time (Apple.call_proc_pid_rusage os1)
      <= Apple.ri_user_time (Apple.call_proc_pid_rusage os2)
  | OnOther, OnOther => True
  | _, _ => False
  end.

Definition is_time_query (q : Query) : bool :=
  match q with
  | KernelProcessorTime | UserProcessorTime | TotalProcessorTime => true
  | WorkingSetSize | PrivateMemorySize => false
  end.

(** On macOS the time base a time query divides by has a non-zero
    denominator. *)
Definition timebase_nonzero (q : Query) (t : Target) : Prop :=
  match t with
  | OnApple os tb =>
      is_time_query q = true -> Apple.denom (Apple.init_time_base os tb) <> 0
  | _ => True
  end.

End Ranges.

(** ** Sources that fail

    What it means for the source of a query to fail: a system call that
    fails, a status file that cannot be opened, or a status file without a
    usable value for the key. *)

Module Failures.
Import StdString StringSpec.

(** The lines of a status file give no usable value for [key]: the key is
    in no line; or the first line that holds it has no digit from the sixth
    character after the start of the key on; or the digits found there
    denote a number above [LLONG_MAX]. *)
Inductive malformed (key : string) : list string -> Prop :=
| key_missing (lines : list string) :
    (forall l, In l lines -> ~ occurs key l) ->
    malformed key lines
| digits_missing (before : list string) (l : string) (after : list string) (p : nat) :
    (forall x, In x before -> ~ occurs key x) ->
    find l key = Some p ->
    (forall i c, (p + 6 <= i)%nat -> String.get i l = Some c -> isdigit c = false) ->
    malformed key (before ++ l :: after)
| number_too_large (before : list string) (l : string) (after : list string)
    (p q : nat) (tail : string) :
    (forall x, In x before -> ~ occurs key x) ->
    find l key = Some p ->
    find_first_of l "0123456789" (p + 6) = Some q ->
    substr l q = Returns tail ->
    LLONG_MAX < decimal (digit_run tail) ->
    malformed key (before ++ l :: after).

Definition status_unusable (key : string) (status : option string) : Prop :=
  match status with
  | None => True
  | Some content => malformed key (read_lines content)
  end.

Definition source_failed (q : Query) (t : Target) : Prop :=
  match t with
  | OnWin32 os =>
      if Ranges.is_time_query q then Win32.GetProcessTimes os = None
      else Win32.GetProcessMemoryInfo os = None
  | OnLinux os =>
      match q with
      | WorkingSetSize => status_unusable "VmRSS:" (Linux.proc_self_status os)
      | PrivateMemorySize => status_unusable "VmSize:" (Linux.proc_self_status os)
      | _ => Linux.getrusage os = None
      end
  | OnApple os _ =>
      if Ranges.is_time_query q then Apple.proc_pid_rusage os = None
      else Apple.proc_pidinfo os = None
  | OnOther => True
  end.

End Failures.

(** ** Further vocabulary *)

Module MoreSpec.
Import StdString StringSpec.

(** [p] is the first position at which [key] stands in [s]. *)
Definition first_occurrence (key s : string) (p : nat) : Prop :=
  (exists pre post, s = (pre ++ key ++ post)%string /\ String.length pre = p) /\
  (forall pre post, s = (pre ++ key ++ post)%string -> (p <= String.length pre)%nat).

(** [s] holds a digit at position [i]. *)
Definition digit_at (s : string) (i : nat) : Prop :=
  exists c, String.get i s = Some c /\ isdigit c = true.

(** The time a [timeval] stands for, in microseconds. *)
Definition timeval_usec (tv : Linux.timeval) : Z :=
  Linux.tv_sec tv * 1000000 + Linux.tv_usec tv.

End MoreSpec.

(** * Properties *)

(** ** Machine integers *)

Lemma to_uint64_id (z : Z) : is_uint64 z -> to_uint64 z = z.
Proof. unfold is_uint64, to_uint64. intros H. now apply Z.mod_small. Qed.

Lemma to_uint64_range (z : Z) : is_uint64 (to_uint64 z).
Proof. unfold is_uint64, to_uint64, UINT64_MOD. apply Z.mod_pos_bound. lia. Qed.

Lemma to_int64_id (z : Z) : LLONG_MIN <= z <= LLONG_MAX -> to_int64 z = z.
Proof.
  unfold LLONG_MIN, LLONG_MAX, to_int64, UINT64_MOD. intros H.
  rewrite Z.mod_small; lia.
Qed.

Lemma milliseconds_id (z : Z) : 0 <= z <= LLONG_MAX -> milliseconds z = z.
Proof. unfold milliseconds, LLONG_MAX. intros H. apply to_int64_id. unfold LLONG_MIN, LLONG_MAX. lia. Qed.

(** ** Strings *)

Module StringFacts.
Import StdString StringSpec.

Lemma prefix_iff (key s : string) :
  String.prefix key s = true <-> exists post, s = (key ++ post)%string.
Proof.
  revert s. induction key as [|k key IH]; intros s.
  - destruct s; simpl; (split; [intros _; eexists; reflexivity | reflexivity]).
  - destruct s as [|c s]; simpl.
    + split; [discriminate | intros [post H]; discriminate].
    + destruct (Ascii.ascii_dec k c) as [->|Hne].
      * rewrite IH. split; intros [post H]; exists post; congruence.
      * split; [discriminate | intros [post H]; congruence].
Qed.

Lemma occurs_cons (key : string) (c : ascii) (s : string) :
  occurs key (String c s) <-> String.prefix key (String c s) = true \/ occurs key s.
Proof.
  rewrite prefix_iff. split.
  - intros [[|d pre] [post H]]; simpl in H.
    + left. now exists post.
    + right. exists pre, post. congruence.
  - intros [[post H] | [pre [post H]]].
    + exists EmptyString, post. exact H.
    + exists (String c pre), post. simpl. now rewrite H.
Qed.

Lemma occurs_empty (key : string) :
  occurs key EmptyString <-> String.prefix key EmptyString = true.
Proof.
  rewrite prefix_iff. split.
  - intros [[|d pre] [post H]]; simpl in H; [now exists post | discriminate].
  - intros [post H]. exists EmptyString, post. exact H.
Qed.

Lemma find_nil (key : string) :
  find EmptyString key = if String.prefix key EmptyString then Some 0%nat else None.
Proof. reflexivity. Qed.

Lemma find_cons (c : ascii) (s key : string) :
  find (String c s) key =
  if String.prefix key (String c s) then Some 0%nat else option_map S (find s key).
Proof. reflexivity. Qed.

(** [find] returns a position at which the key stands. *)
Lemma find_Some_occurs (s key : string) (p : nat) :
  find s key = Some p ->
  exists pre post, s = (pre ++ key ++ post)%string /\ String.length pre = p.
Proof.
  revert p. induction s as [|c s IH]; intros p; [rewrite find_nil | rewrite find_cons].
  - destruct (String.prefix key EmptyString) eqn:E; [|discriminate].
    intros [= <-]. apply prefix_iff in E. destruct E as [post E].
    now exists EmptyString, post.
  - destruct (String.prefix key (String c s)) eqn:E.
    + intros [= <-]. apply prefix_iff in E. destruct E as [post E].
      now exists EmptyString, post.
    + destruct (find s key) as [n|]; [|discriminate]. simpl. intros [= <-].
      destruct (IH n eq_refl) as (pre & post & -> & Hlen).
      exists (String c pre), post. simpl. now rewrite Hlen.
Qed.

(** ... the lowest one ... *)
Lemma find_Some_first (s key : string) (p : nat) :
  find s key = Some p ->
  forall pre post, s = (pre ++ key ++ post)%string -> (p <= String.length pre)%nat.
Proof.
  revert p. induction s as [|c s IH]; intros p; [rewrite find_nil | rewrite find_cons].
  - destruct (String.prefix key EmptyString); [|discriminate].
    intros [= <-] pre post _. lia.
  - destruct (String.prefix key (String c s)) eqn:E.
    + intros [= <-] pre post _. lia.
    + destruct (find s key) as [n|]; [|discriminate]. simpl. intros [= <-] pre post H.
      destruct pre as [|d pre]; simpl in H.
      * assert (String.prefix key (String c s) = true) by (apply prefix_iff; now exists post).
        congruence.
      * simpl. injection H as _ H. specialize (IH n eq_refl pre post H). lia.
Qed.

(** ... and [npos] exactly when the key occurs nowhere. *)
Lemma find_None_iff (s key : string) : find s key = None <-> ~ occurs key s.
Proof.
  split.
  - induction s as [|c s IH]; [rewrite find_nil | rewrite find_cons].
    + rewrite occurs_empty. destruct (String.prefix key EmptyString); [discriminate | congruence].
    + rewrite occurs_cons. destruct (String.prefix key (String c s)); [discriminate|].
      destruct (find s key); [discriminate|]. intros _ [H|H]; [discriminate | now apply IH].
  - intros H. destruct (find s key) as [p|] eqn:E; [|reflexivity].
    exfalso. apply H. destruct (find_Some_occurs _ _ _ E) as (pre & post & Hs & _).
    now exists pre, post.
Qed.

Lemma find_Some_iff_occurs (s key : string) :
  (exists p, find s key = Some p) <-> occurs key s.
Proof.
  split.
  - intros [p E]. destruct (find_Some_occurs _ _ _ E) as (pre & post & Hs & _).
    now exists pre, post.
  - intros H. destruct (find s key) as [p|] eqn:E; [now exists p|].
    apply find_None_iff in E. contradiction.
Qed.

Lemma prefix_get (key s : string) (i : nat) (c : ascii) :
  String.prefix key s = true -> String.get i key = Some c -> String.get i s = Some c.
Proof.
  intros H. apply prefix_iff in H. destruct H as [post ->].
  revert i. induction key as [|k key IH]; intros i; simpl.
  - discriminate.
  - destruct i; [trivial | apply IH].
Qed.

(** The characters of the key stand in [s] from the position found. *)
Lemma find_Some_get (s key : string) (p i : nat) (c : ascii) :
  find s key = Some p -> String.get i key = Some c -> String.get (p + i) s = Some c.
Proof.
  revert p. induction s as [|d s IH]; intros p; [rewrite find_nil | rewrite find_cons].
  - destruct (String.prefix key EmptyString) eqn:E; [|discriminate].
    intros [= <-]. now apply prefix_get.
  - destruct (String.prefix key (String d s)) eqn:E.
    + intros [= <-]. now apply prefix_get.
    + destruct (find s key) as [n|]; [|discriminate]. simpl. intros [= <-] H.
      now apply IH.
Qed.

(** [find_first_of] *)
Lemma find_first_of_Some (s chars : string) (pos q : nat) :
  find_first_of s chars pos = Some q ->
  (pos <= q)%nat /\
  (exists c, String.get q s = Some c /\ mem c chars = true) /\
  (forall i c, (pos <= i < q)%nat -> String.get i s = Some c -> mem c chars = false).
Proof.
  revert pos q. induction s as [|d s IH]; intros pos q; simpl.
  - discriminate.
  - destruct pos as [|pos].
    + destruct (mem d chars) eqn:M.
      * intros [= <-]. split; [lia|]. split; [now exists d | intros; lia].
      * destruct (find_first_of s chars 0) as [n|] eqn:F; [|discriminate].
        simpl. intros [= <-]. destruct (IH 0%nat n F) as (_ & Hc & Hmin).
        split; [lia|]. split; [exact Hc|].
        intros [|i] c Hi; simpl; [congruence | apply Hmin; lia].
    + destruct (find_first_of s chars pos) as [n|] eqn:F; [|discriminate].
      simpl. intros [= <-]. destruct (IH pos n F) as (Hle & Hc & Hmin).
      split; [lia|]. split; [exact Hc|].
      intros [|i] c Hi; simpl; [lia | apply Hmin; lia].
Qed.

Lemma find_first_of_None (s chars : string) (pos : nat) :
  find_first_of s chars pos = None <->
  (forall i c, (pos <= i)%nat -> String.get i s = Some c -> mem c chars = false).
Proof.
  revert pos. induction s as [|d s IH]; intros pos; simpl.
  - split; [intros _ i c _; destruct i; discriminate | reflexivity].
  - destruct pos as [|pos].
    + destruct (mem d chars) eqn:M.
      * split; [discriminate|]. intros H. specialize (H 0%nat d (Nat.le_refl _) eq_refl). congruence.
      * destruct (find_first_of s chars 0) as [n|] eqn:F; simpl.
        -- split; [discriminate|]. intros H.
           assert (find_first_of s chars 0 = None) as E; [|congruence].
           apply IH. intros i c Hi. apply (H (S i)). lia.
        -- split; [|reflexivity]. intros _ [|i] c Hi; simpl; [congruence|].
           apply (proj1 (IH 0%nat) F). lia.
    + destruct (find_first_of s chars pos) as [n|] eqn:F; simpl.
      * split; [discriminate|]. intros H.
        assert (find_first_of s chars pos = None) as E; [|congruence].
        apply IH. intros i c Hi. apply (H (S i)). lia.
      * split; [|reflexivity]. intros _ [|i] c Hi; simpl; [lia|].
        apply (proj1 (IH pos) F). lia.
Qed.

(** A position that holds no character of the set can be skipped. *)
Lemma find_first_of_skip (s chars : string) (pos : nat) (c : ascii) :
  String.get pos s = Some c -> mem c chars = false ->
  find_first_of s chars pos = find_first_of s chars (S pos).
Proof.
  revert pos. induction s as [|d s IH]; intros pos; simpl.
  - discriminate.
  - destruct pos as [|pos].
    + intros [= ->] M. now rewrite M.
    + intros G M. f_equal. now apply IH.
Qed.

(** The suffix taken at a position that holds a character. *)
Lemma substr_get (s : string) (q : nat) (c : ascii) :
  String.get q s = Some c -> exists tail, substr s q = Returns (String c tail).
Proof.
  revert q. induction s as [|d s IH]; intros q; simpl.
  - discriminate.
  - destruct q as [|q]; simpl.
    + intros [= ->]. now exists s.
    + apply IH.
Qed.

Lemma mem_digits (c : ascii) : mem c "0123456789" = isdigit c.
Proof.
  destruct c as [[] [] [] [] [] [] [] []]; reflexivity.
Qed.

Lemma digit_run_split (s : string) :
  s = (digit_run s ++ after_digit_run s)%string.
Proof.
  induction s as [|c s IH]; simpl; [reflexivity|].
  destruct (isdigit c); simpl; [now rewrite <- IH | reflexivity].
Qed.

Lemma digit_run_all_digits (s : string) : all_digits (digit_run s).
Proof.
  induction s as [|c s IH]; intros i d; simpl.
  - destruct i; discriminate.
  - destruct (isdigit c) eqn:E; simpl.
    + destruct i; [intros [= <-]; exact E | apply IH].
    + destruct i; discriminate.
Qed.

Lemma after_digit_run_stops (s : string) :
  starts_with_digit (after_digit_run s) = false.
Proof.
  induction s as [|c s IH]; simpl; [reflexivity|].
  destruct (isdigit c) eqn:E; simpl; [exact IH | exact E].
Qed.

Lemma digit_run_maximal (s : string) : maximal_digit_run (digit_run s) s.
Proof.
  split; [apply digit_run_all_digits|].
  exists (after_digit_run s). split; [apply digit_run_split | apply after_digit_run_stops].
Qed.

Lemma maximal_digit_run_unique (run s : string) :
  maximal_digit_run run s -> run = digit_run s.
Proof.
  intros [Hd (rest & -> & Hr)]. revert Hd.
  induction run as [|c run IH]; intros Hd; simpl.
  - destruct rest as [|c rest]; simpl in *; [reflexivity | now rewrite Hr].
  - rewrite (Hd 0%nat c eq_refl). f_equal. apply IH.
    intros i d Hi. apply (Hd (S i)). exact Hi.
Qed.

Lemma digit_value_range (c : ascii) : isdigit c = true -> 0 <= digit_value c <= 9.
Proof.
  unfold isdigit, digit_value. intros H. apply andb_prop in H. destruct H as [H1 H2].
  apply Nat.leb_le in H1. apply Nat.leb_le in H2. lia.
Qed.

Lemma decimal_from_nonneg (ds : string) (acc : Z) :
  all_digits ds -> 0 <= acc -> 0 <= decimal_from acc ds.
Proof.
  revert acc. induction ds as [|c ds IH]; intros acc Hd Hacc; simpl; [exact Hacc|].
  apply IH.
  - intros i d Hi. apply (Hd (S i)). exact Hi.
  - pose proof (digit_value_range c (Hd 0%nat c eq_refl)). lia.
Qed.

Lemma decimal_digit_run_nonneg (s : string) : 0 <= decimal (digit_run s).
Proof. apply decimal_from_nonneg; [apply digit_run_all_digits | lia]. Qed.

Lemma isdigit_not_space_or_sign (c : ascii) :
  isdigit c = true ->
  isspace c = false /\ Ascii.eqb c "-"%char = false /\ Ascii.eqb c "+"%char = false.
Proof.
  destruct c as [[] [] [] [] [] [] [] []]; (discriminate || (intros _; repeat split; reflexivity)).
Qed.

(** [stoll] on a string that starts with a digit: the value of its digit
    run, or [std::out_of_range] when that exceeds [LLONG_MAX]. *)
Lemma stoll_digit (c : ascii) (tail : string) :
  isdigit c = true ->
  stoll (String c tail) =
  let n := decimal (digit_run (String c tail)) in
  if n <=? LLONG_MAX then Returns n else Raises out_of_range.
Proof.
  intros Hc. destruct (isdigit_not_space_or_sign c Hc) as (Hs & Hm & Hp).
  pose proof (decimal_digit_run_nonneg (String c tail)) as Hn.
  unfold stoll. cbn [skip_space]. rewrite Hs, Hm, Hp.
  cbn [digit_run] in *. rewrite Hc in *. cbv zeta.
  replace (LLONG_MIN <=? decimal (String c (digit_run tail))) with true; [reflexivity|].
  symmetry. apply Z.leb_le. unfold LLONG_MIN. lia.
Qed.

End StringFacts.

(** ** The parser *)

Module ParserFacts.
Import StdString StringSpec StringFacts Parser.

Lemma parseStatus_key_not_found (s key : string) :
  find s key = None -> parseStatus s key = mkResult KEY_NOT_FOUND 0.
Proof. unfold parseStatus. now intros ->. Qed.

Lemma parseStatus_value_not_found (s key : string) (p : nat) :
  find s key = Some p ->
  find_first_of s "0123456789" (p + 6) = None ->
  parseStatus s key = mkResult VALUE_NOT_FOUND 0.
Proof. unfold parseStatus. now intros -> ->. Qed.

Lemma parseStatus_ok (s key : string) (p q : nat) :
  find s key = Some p ->
  find_first_of s "0123456789" (p + 6) = Some q ->
  exists tail,
    substr s q = Returns tail /\
    starts_with_digit tail = true /\
    parseStatus s key =
    mkResult OK (if decimal (digit_run tail) <=? LLONG_MAX
                 then decimal (digit_run tail) else 0).
Proof.
  intros Hk Hv. unfold parseStatus. rewrite Hk, Hv.
  destruct (find_first_of_Some _ _ _ _ Hv) as (_ & (c & Hget & Hmem) & _).
  rewrite mem_digits in Hmem.
  destruct (substr_get _ _ _ Hget) as [tail Hsub].
  exists (String c tail). split; [exact Hsub|]. split; [exact Hmem|].
  rewrite Hsub. cbn [bind]. rewrite (stoll_digit _ _ Hmem). cbv zeta.
  pose proof (decimal_digit_run_nonneg (String c tail)) as Hn.
  destruct (decimal (digit_run (String c tail)) <=? LLONG_MAX) eqn:E; cbn [bind try_catch].
  - apply Z.leb_le in E. rewrite to_uint64_id; [reflexivity|].
    unfold is_uint64, UINT64_MOD, LLONG_MAX in *. lia.
  - reflexivity.
Qed.

(** The result type is [KEY_NOT_FOUND] exactly when the key occurs nowhere
    in the line. *)
Lemma parseStatus_KEY_NOT_FOUND_iff (s key : string) :
  resultType (parseStatus s key) = KEY_NOT_FOUND <-> ~ occurs key s.
Proof.
  rewrite <- find_None_iff. unfold parseStatus.
  destruct (find s key) as [p|]; [|now split].
  split; [|discriminate].
  destruct (find_first_of s "0123456789" (p + 6)) as [q|]; [|discriminate].
  destruct (substr s q) as [sub|]; cbn [bind try_catch]; [|discriminate].
  destruct (stoll sub); cbn [bind try_catch]; discriminate.
Qed.

End ParserFacts.

(** ** The memory queries on Linux *)

Module LinuxMemoryFacts.
Import StdString StringSpec StringFacts Parser ParserFacts Linux.

(** [getline] delivers the lines of [read_lines] one by one. *)
Lemma getline_read_lines (input : string) :
  match getline input with
  | Some (l, rest) => read_lines input = l :: read_lines rest
  | None => read_lines input = []
  end.
Proof.
  induction input as [|c input IH]; simpl; [reflexivity|].
  destruct (Ascii.eqb c "010"%char); [reflexivity|].
  destruct (getline input) as [[l rest]|]; rewrite IH; reflexivity.
Qed.

(** Lines without the key are passed over. *)
Lemma scan_skip (key : string) (before rest : list string) :
  (forall l, In l before -> ~ occurs key l) ->
  scan key (before ++ rest) = scan key rest.
Proof.
  induction before as [|l before IH]; intros H; simpl; [reflexivity|].
  rewrite (proj2 (parseStatus_KEY_NOT_FOUND_iff l key)) by (apply H; now left).
  apply IH. intros x Hx. apply H. now right.
Qed.

(** A line with the key ends the loop. *)
Lemma scan_hit (key l : string) (rest : list string) :
  occurs key l ->
  scan key (l :: rest) = (mul64 (value (parseStatus l key)) 1024, rest).
Proof.
  intros H. simpl.
  destruct (resultType (parseStatus l key)) eqn:E; try reflexivity.
  apply parseStatus_KEY_NOT_FOUND_iff in E. contradiction.
Qed.

Lemma scan_first_key_line (key l : string) (before after : list string) :
  (forall x, In x before -> ~ occurs key x) ->
  occurs key l ->
  scan key (before ++ l :: after) = (mul64 (value (parseStatus l key)) 1024, after).
Proof. intros Hb Hl. rewrite scan_skip by exact Hb. now apply scan_hit. Qed.

Lemma scan_no_key (key : string) (lines : list string) :
  (forall x, In x lines -> ~ occurs key x) -> scan key lines = (0, []).
Proof.
  intros H. rewrite <- (app_nil_r lines). now rewrite scan_skip.
Qed.

End LinuxMemoryFacts.

(** ** Status files without a usable value *)

Module LinuxFailureFacts.
Import StdString StringSpec StringFacts Parser ParserFacts Linux LinuxMemoryFacts Failures.

(** A status file without a usable value makes the loop return [0]. *)
Lemma scan_malformed (key : string) (lines : list string) :
  malformed key lines -> fst (scan key lines) = 0.
Proof.
  intros [ls Hno | before l after p Hb Hk Hd | before l after p q tail Hb Hk Hv Hsub Hbig].
  - now rewrite scan_no_key.
  - rewrite scan_first_key_line; [|exact Hb | apply find_Some_iff_occurs; now exists p].
    rewrite (parseStatus_value_not_found l key p Hk); [reflexivity|].
    apply find_first_of_None. intros i c Hi Hget. rewrite mem_digits. now apply (Hd i).
  - rewrite scan_first_key_line; [|exact Hb | apply find_Some_iff_occurs; now exists p].
    destruct (parseStatus_ok _ _ _ _ Hk Hv) as (tail' & Hsub' & _ & ->).
    assert (tail' = tail) as -> by congruence.
    replace (decimal (digit_run tail) <=? LLONG_MAX) with false; [reflexivity|].
    symmetry. apply Z.leb_gt. exact Hbig.
Qed.

Lemma memory_query_unusable (key : string) (os : OS) :
  status_unusable key (proc_self_status os) -> fst (memory_query key os) = 0.
Proof.
  unfold status_unusable, memory_query. destruct (proc_self_status os) as [content|].
  - intros H. apply scan_malformed in H.
    destruct (scan key (read_lines content)) as [v rest]. exact H.
  - reflexivity.
Qed.

End LinuxFailureFacts.

(** ** Processor times *)

Module TimeFacts.
Import Ranges.

(** A number below [2^n] has no bit at or above position [n]. *)
Lemma testbit_above (a n i : Z) : 0 <= a < 2 ^ n -> n <= i -> Z.testbit a i = false.
Proof.
  intros Ha Hi. destruct (Z.eq_dec a 0) as [->|Hne]; [apply Z.bits_0|].
  apply Z.bits_above_log2; [lia|].
  assert (0 <= n) by (destruct (Z.lt_ge_cases n 0) as [Hn|Hn]; [rewrite Z.pow_neg_r in Ha; lia | lia]).
  apply Z.lt_le_trans with n; [|exact Hi].
  apply Z.log2_lt_pow2; lia.
Qed.

(** The two words of a [FILETIME] put side by side. *)
Lemma lor_shiftl_words (lo hi : Z) :
  is_uint32 lo -> is_uint32 hi ->
  Z.lor lo (Z.shiftl hi 32) = lo + hi * 2 ^ 32.
Proof.
  unfold is_uint32, UINT32_MOD. intros Hlo Hhi.
  rewrite <- Z.shiftl_mul_pow2 by lia.
  rewrite <- Z.lxor_lor, <- Z.add_nocarry_lxor; try reflexivity.
  all: apply Z.bits_inj'; intros i Hi; rewrite Z.land_spec, Z.bits_0;
    destruct (Z.lt_ge_cases i 32) as [Hlt|Hge];
    [ rewrite (Z.shiftl_spec_low hi 32 i) by lia; apply andb_false_r
    | rewrite (testbit_above lo 32 i) by lia; reflexivity ].
Qed.

Lemma ticks_eq (t : Win32.FILETIME) :
  FILETIME_in_range t -> Win32.ticks t = FILETIME_ticks t.
Proof.
  unfold FILETIME_in_range, Win32.ticks, FILETIME_ticks, shl64, Win32.sizeof_DWORD.
  intros [Hlo Hhi]. change (4 * 8) with 32.
  assert (is_uint64 (Win32.dwLowDateTime t)) as Hlo64
    by (unfold is_uint32, is_uint64, UINT32_MOD, UINT64_MOD in *; lia).
  assert (is_uint64 (Win32.dwHighDateTime t)) as Hhi64
    by (unfold is_uint32, is_uint64, UINT32_MOD, UINT64_MOD in *; lia).
  rewrite (to_uint64_id (Win32.dwLowDateTime t)) by assumption.
  rewrite (to_uint64_id (Win32.dwHighDateTime t)) by assumption.
  rewrite (to_uint64_id (Z.shiftl _ 32)).
  - now apply lor_shiftl_words.
  - rewrite Z.shiftl_mul_pow2 by lia.
    unfold is_uint32, is_uint64, UINT32_MOD, UINT64_MOD in *. lia.
Qed.

Lemma FILETIME_ticks_range (t : Win32.FILETIME) :
  FILETIME_in_range t -> is_uint64 (FILETIME_ticks t).
Proof.
  unfold FILETIME_in_range, FILETIME_ticks, is_uint32, is_uint64, UINT32_MOD, UINT64_MOD.
  lia.
Qed.

(** The bits of the 64-bit value are those of the two words. *)
Lemma ticks_bits (t : Win32.FILETIME) (i : Z) :
  FILETIME_in_range t ->
  (0 <= i < 32 -> Z.testbit (Win32.ticks t) i = Z.testbit (Win32.dwLowDateTime t) i) /\
  (32 <= i < 64 -> Z.testbit (Win32.ticks t) i = Z.testbit (Win32.dwHighDateTime t) (i - 32)).
Proof.
  intros H. rewrite (ticks_eq t H). unfold FILETIME_ticks.
  destruct H as [Hlo Hhi]. rewrite <- (lor_shiftl_words _ _ Hlo Hhi).
  split; intros Hi; rewrite Z.lor_spec.
  - rewrite (Z.shiftl_spec_low _ 32 i) by lia. apply orb_false_r.
  - rewrite (testbit_above (Win32.dwLowDateTime t) 32 i) by (unfold is_uint32, UINT32_MOD in Hlo; lia).
    rewrite Z.shiftl_spec by lia. reflexivity.
Qed.

(** A quotient of a 64-bit value by a positive constant is a duration that
    [std::chrono::milliseconds] holds unchanged. *)
Lemma milliseconds_div (x d : Z) :
  is_uint64 x -> 2 <= d -> milliseconds (x / d) = x / d.
Proof.
  unfold is_uint64, UINT64_MOD. intros Hx Hd. apply milliseconds_id.
  split; [apply Z.div_pos; lia|].
  unfold LLONG_MAX.
  assert (x / d <= x / 2) by (apply Z.div_le_compat_l; lia).
  assert (x / 2 <= (2 ^ 64 - 1) / 2) by (apply Z.div_le_mono; lia).
  change ((2 ^ 64 - 1) / 2) with (2 ^ 63 - 1) in *. lia.
Qed.

Lemma Win32_kernel_eq (os : Win32.OS) :
  FILETIME_in_range (Win32.kernelTime (Win32.call_GetProcessTimes os)) ->
  Win32.getKernelProcessorTime os
  = FILETIME_ticks (Win32.kernelTime (Win32.call_GetProcessTimes os)) / 10000.
Proof.
  intros H. unfold Win32.getKernelProcessorTime. cbv zeta. rewrite (ticks_eq _ H).
  apply milliseconds_div; [now apply FILETIME_ticks_range | lia].
Qed.

Lemma Win32_user_eq (os : Win32.OS) :
  FILETIME_in_range (Win32.userTime (Win32.call_GetProcessTimes os)) ->
  Win32.getUserProcessorTime os
  = FILETIME_ticks (Win32.userTime (Win32.call_GetProcessTimes os)) / 10000.
Proof.
  intros H. unfold Win32.getUserProcessorTime. cbv zeta. rewrite (ticks_eq _ H).
  apply milliseconds_div; [now apply FILETIME_ticks_range | lia].
Qed.

(** The total is the quotient of the sum of the ticks, reduced modulo
    [2^64]. *)
Lemma Win32_total_eq (os : Win32.OS) :
  FILETIME_in_range (Win32.kernelTime (Win32.call_GetProcessTimes os)) ->
  FILETIME_in_range (Win32.userTime (Win32.call_GetProcessTimes os)) ->
  Win32.getTotalProcessorTime os
  = ((FILETIME_ticks (Win32.kernelTime (Win32.call_GetProcessTimes os)) +
      FILETIME_ticks (Win32.userTime (Win32.call_GetProcessTimes os))) mod UINT64_MOD) / 10000.
Proof.
  intros Hk Hu. unfold Win32.getTotalProcessorTime. cbv zeta.
  rewrite (ticks_eq _ Hk), (ticks_eq _ Hu). unfold add64.
  apply milliseconds_div; [apply to_uint64_range | lia].
Qed.

(** The milliseconds of a [timeval] in range. *)
Lemma timeval_ms_eq (tv : Linux.timeval) :
  timeval_in_range tv ->
  milliseconds (add64 (mul64 (to_uint64 (Linux.tv_sec tv)) 1000)
                      (to_uint64 (Linux.tv_usec tv) / 1000))
  = Linux.tv_sec tv * 1000 + Linux.tv_usec tv / 1000.
Proof.
  unfold timeval_in_range, LLONG_MAX. intros (Hs & Hu & Hfit).
  assert (0 <= Linux.tv_usec tv / 1000) as Hq by (apply Z.div_pos; lia).
  unfold add64, mul64.
  rewrite (to_uint64_id (Linux.tv_sec tv)) by (unfold is_uint64, UINT64_MOD; lia).
  rewrite (to_uint64_id (Linux.tv_usec tv)) by (unfold is_uint64, UINT64_MOD; lia).
  rewrite (to_uint64_id (_ * 1000)) by (unfold is_uint64, UINT64_MOD; lia).
  rewrite to_uint64_id by (unfold is_uint64, UINT64_MOD; lia).
  apply milliseconds_id. unfold LLONG_MAX. lia.
Qed.

Lemma Linux_times_eq (os : Linux.OS) :
  rusage_in_range (Linux.call_getrusage os) ->
  let ru := Linux.call_getrusage os in
  Linux.getKernelProcessorTime os
  = Linux.tv_sec (Linux.ru_stime ru) * 1000 + Linux.tv_usec (Linux.ru_stime ru) / 1000 /\
  Linux.getUserProcessorTime os
  = Linux.tv_sec (Linux.ru_utime ru) * 1000 + Linux.tv_usec (Linux.ru_utime ru) / 1000 /\
  Linux.getTotalProcessorTime os
  = Linux.getKernelProcessorTime os + Linux.getUserProcessorTime os.
Proof.
  intros (Hs & Hu & Hsum) ru.
  unfold Linux.getKernelProcessorTime, Linux.getUserProcessorTime, Linux.getTotalProcessorTime,
    Linux.RUsageResult_of. cbn [Linux.sysTime Linux.userTime Linux.totalTime].
  fold ru in Hs, Hu, Hsum |- *.
  rewrite (timeval_ms_eq _ Hs), (timeval_ms_eq _ Hu).
  repeat split. unfold ms_add. apply to_int64_id.
  destruct Hs as (Hs1 & Hs2 & _), Hu as (Hu1 & Hu2 & _).
  assert (0 <= Linux.tv_usec (Linux.ru_stime ru) / 1000) by (apply Z.div_pos; lia).
  assert (0 <= Linux.tv_usec (Linux.ru_utime ru) / 1000) by (apply Z.div_pos; lia).
  unfold LLONG_MIN, LLONG_MAX in *. lia.
Qed.

Lemma Apple_ms_range (tb : Apple.mach_timebase_info_data_t) (x : Z) :
  0 < Apple.denom tb -> 0 <= Apple_ms tb x < 2 ^ 62.
Proof.
  intros Hd. unfold Apple_ms, Apple.NSEC_TO_MSEC_RATIO, mul64.
  pose proof (to_uint64_range (to_uint64 x * Apple.numer tb)) as Hr.
  unfold is_uint64, UINT64_MOD in Hr.
  set (a := to_uint64 (to_uint64 x * Apple.numer tb)) in *.
  assert (0 <= a / Apple.denom tb <= a) as Hq.
  { split; [apply Z.div_pos; lia|]. apply Z.div_le_upper_bound; nia. }
  split; [apply Z.div_pos; lia|].
  apply Z.div_lt_upper_bound; lia.
Qed.

Lemma Apple_result_eq (os : Apple.OS) (tb : Apple.mach_timebase_info_data_t)
    (r : Apple.rusage_info_v2) :
  0 < Apple.denom (Apple.init_time_base os tb) ->
  let e := Apple.init_time_base os tb in
  Apple.ProcPidRUsageResult_of os tb r =
  (e, Returns (Apple.mkProcPidRUsageResult
                 (Apple_ms e (Apple.ri_system_time r))
                 (Apple_ms e (Apple.ri_user_time r))
                 (Apple_ms e (Apple.ri_system_time r) + Apple_ms e (Apple.ri_user_time r)))).
Proof.
  intros Hd. cbv zeta. unfold Apple.ProcPidRUsageResult_of.
  set (e := Apple.init_time_base os tb) in *. f_equal.
  unfold Apple.div64. replace (Apple.denom e =? 0) with false by (symmetry; apply Z.eqb_neq; lia).
  cbn [bind].
  pose proof (Apple_ms_range e (Apple.ri_system_time r) Hd) as Hs.
  pose proof (Apple_ms_range e (Apple.ri_user_time r) Hd) as Hu.
  unfold Apple_ms in *.
  rewrite !milliseconds_id by (unfold LLONG_MAX; lia).
  unfold ms_add. rewrite to_int64_id by (unfold LLONG_MIN, LLONG_MAX; lia).
  reflexivity.
Qed.

(** In range, nothing wraps: the milliseconds are those of the exact
    product. *)
Lemma Apple_ms_exact (tb : Apple.mach_timebase_info_data_t) (x : Z) :
  is_uint64 x -> x * Apple.numer tb < UINT64_MOD -> 0 <= Apple.numer tb ->
  Apple_ms tb x = (x * Apple.numer tb / Apple.denom tb) / 1000000.
Proof.
  intros Hx Hm Hn. unfold Apple_ms, mul64, Apple.NSEC_TO_MSEC_RATIO.
  rewrite (to_uint64_id x Hx).
  rewrite to_uint64_id; [reflexivity|]. unfold is_uint64 in *. split; [nia | exact Hm].
Qed.

Lemma Apple_ms_mono (tb : Apple.mach_timebase_info_data_t) (x y : Z) :
  timebase_in_range tb ->
  is_uint64 x -> is_uint64 y ->
  x * Apple.numer tb < UINT64_MOD -> y * Apple.numer tb < UINT64_MOD ->
  x <= y -> Apple_ms tb x <= Apple_ms tb y.
Proof.
  unfold timebase_in_range, is_uint32. intros (Hn & Hd & Hd0) Hx Hy Hxm Hym Hle.
  rewrite !Apple_ms_exact by (assumption || lia).
  apply Z.div_le_mono; [lia|]. apply Z.div_le_mono; [lia|]. nia.
Qed.

(** The three time queries of a macOS target whose time base has a positive
    denominator. *)
Lemma Apple_queries_eq (os : Apple.OS) (tb : Apple.mach_timebase_info_data_t) :
  0 < Apple.denom (Apple.init_time_base os tb) ->
  let e := Apple.init_time_base os tb in
  let r := Apple.call_proc_pid_rusage os in
  Apple.getKernelProcessorTime os tb = (e, Returns (Apple_ms e (Apple.ri_system_time r))) /\
  Apple.getUserProcessorTime os tb = (e, Returns (Apple_ms e (Apple.ri_user_time r))) /\
  Apple.getTotalProcessorTime os tb
  = (e, Returns (Apple_ms e (Apple.ri_system_time r) + Apple_ms e (Apple.ri_user_time r))).
Proof.
  intros Hd. cbv zeta.
  unfold Apple.getKernelProcessorTime, Apple.getUserProcessorTime, Apple.getTotalProcessorTime,
    Apple.time_query.
  rewrite (Apple_result_eq os tb _ Hd). repeat split.
Qed.

Lemma FILETIME_ticks_mono (a b : Win32.FILETIME) :
  FILETIME_le a b -> FILETIME_ticks a <= FILETIME_ticks b.
Proof. unfold FILETIME_le, FILETIME_ticks. lia. Qed.

(** The milliseconds of a [timeval] are the whole milliseconds in its
    microseconds. *)
Lemma timeval_ms_floor (tv : Linux.timeval) :
  Linux.tv_sec tv * 1000 + Linux.tv_usec tv / 1000 = timeval_microseconds tv / 1000.
Proof.
  unfold timeval_microseconds.
  replace (Linux.tv_sec tv * 1000000) with (Linux.tv_sec tv * 1000 * 1000) by lia.
  rewrite Z.div_add_l by lia. reflexivity.
Qed.

Lemma timeval_microseconds_mono (a b : Linux.timeval) :
  timeval_le a b -> timeval_microseconds a <= timeval_microseconds b.
Proof. unfold timeval_le, timeval_microseconds. lia. Qed.

(** Snapshots ordered field by field are ordered by the times they stand
    for. *)
Lemma snapshot_fields_le_le (t1 t2 : Target) :
  snapshot_fields_le t1 t2 -> snapshot_le t1 t2.
Proof.
  destruct t1 as [os1 | os1 | os1 tb1 | ], t2 as [os2 | os2 | os2 tb2 | ];
    cbn [snapshot_fields_le snapshot_le]; try trivial.
  - intros [Hk Hu]. split; now apply FILETIME_ticks_mono.
  - intros [Hs Hu]. split; now apply timeval_microseconds_mono.
Qed.

Lemma timeval_ms_mono (a b : Linux.timeval) :
  timeval_le a b ->
  Linux.tv_sec a * 1000 + Linux.tv_usec a / 1000
  <= Linux.tv_sec b * 1000 + Linux.tv_usec b / 1000.
Proof.
  unfold timeval_le. intros [Hs Hu].
  assert (Linux.tv_usec a / 1000 <= Linux.tv_usec b / 1000) by (apply Z.div_le_mono; lia).
  lia.
Qed.

(** With a non-zero denominator the macOS constructor returns. *)
Lemma Apple_result_returns (os : Apple.OS) (tb : Apple.mach_timebase_info_data_t)
    (r : Apple.rusage_info_v2) :
  Apple.denom (Apple.init_time_base os tb) <> 0 ->
  let e := Apple.init_time_base os tb in
  snd (Apple.ProcPidRUsageResult_of os tb r) =
  Returns (Apple.mkProcPidRUsageResult
             (milliseconds (Apple_ms e (Apple.ri_system_time r)))
             (milliseconds (Apple_ms e (Apple.ri_user_time r)))
             (ms_add (milliseconds (Apple_ms e (Apple.ri_system_time r)))
                     (milliseconds (Apple_ms e (Apple.ri_user_time r))))).
Proof.
  intros Hd. cbv zeta. unfold Apple.ProcPidRUsageResult_of, Apple.div64. cbn [snd].
  apply Z.eqb_neq in Hd. rewrite Hd. reflexivity.
Qed.

Lemma Apple_ms_zero (tb : Apple.mach_timebase_info_data_t) : Apple_ms tb 0 = 0.
Proof.
  unfold Apple_ms, mul64. change (to_uint64 0) with 0. rewrite Z.mul_0_l.
  change (to_uint64 0) with 0. now rewrite Zdiv_0_l.
Qed.

End TimeFacts.

(** * The claims *)

Section LinuxMemoryClaims.
Import StdString StringSpec StringFacts Parser ParserFacts Linux LinuxMemoryFacts.

(** C2, as the code has it.  For the keys [VmRSS:] and [VmSize:], in a line
    where the key is found at [p], the search for a digit that the parser
    starts at [p + 6] finds what a search started right after the key
    finds: the first digit at or after the end of the key.  The parser then
    returns [OK] with the decimal value of the maximal digit run that starts
    there when that value is at most [LLONG_MAX], and [OK] with [0] when it
    is larger. *)
Theorem C2_parseStatus_locates_value (s key : string) (p : nat) :
  key = "VmRSS:" \/ key = "VmSize:" ->
  find s key = Some p ->
  let after_key := (p + String.length key)%nat in
  find_first_of s "0123456789" (p + 6) = find_first_of s "0123456789" after_key /\
  (forall q, find_first_of s "0123456789" (p + 6) = Some q ->
     (after_key <= q)%nat /\
     (forall i c, (after_key <= i < q)%nat -> String.get i s = Some c -> isdigit c = false) /\
     exists tail run,
       substr s q = Returns tail /\
       maximal_digit_run run tail /\
       run <> EmptyString /\
       parseStatus s key =
       mkResult OK (if decimal run <=? LLONG_MAX then decimal run else 0)).
Proof.
  intros Hkey Hfind after_key.
  assert (find_first_of s "0123456789" (p + 6) = find_first_of s "0123456789" after_key) as Heq.
  { subst after_key. destruct Hkey as [-> | ->]; simpl String.length.
    - reflexivity.
    - replace (p + 7)%nat with (S (p + 6)) by lia.
      apply find_first_of_skip with (c := ":"%char); [|reflexivity].
      now apply (find_Some_get s "VmSize:" p 6 ":"%char). }
  split; [exact Heq|]. intros q Hq.
  destruct (parseStatus_ok _ _ _ _ Hfind Hq) as (tail & Hsub & Hd & Hres).
  rewrite Heq in Hq. destruct (find_first_of_Some _ _ _ _ Hq) as (Hle & _ & Hmin).
  split; [exact Hle|]. split.
  - intros i c Hi Hget. rewrite <- mem_digits. now apply (Hmin i c).
  - exists tail, (digit_run tail). repeat split.
    + exact Hsub.
    + apply digit_run_all_digits.
    + exists (after_digit_run tail). split; [apply digit_run_split | apply after_digit_run_stops].
    + destruct tail as [|c tail]; simpl in Hd; [discriminate|].
      simpl. rewrite Hd. discriminate.
    + exact Hres.
Qed.

Lemma C2_witness :
  find_first_of "VmSize:   2048 kB" "0123456789" 6 =
  find_first_of "VmSize:   2048 kB" "0123456789" 7.
Proof.
  exact (proj1 (C2_parseStatus_locates_value "VmSize:   2048 kB" "VmSize:" 0
                  (or_intror eq_refl) eq_refl)).
Defined.

(** C2 as it is stated fails: the digit run of this line denotes [2^63], an
    unsigned 64-bit number, and the parser returns [0]. *)
Lemma C2_counterexample :
  ~ (forall (s key : string) (p q : nat) (tail : string),
       key = "VmRSS:" \/ key = "VmSize:" ->
       find s key = Some p ->
       find_first_of s "0123456789" (p + 6) = Some q ->
       substr s q = Returns tail ->
       value (parseStatus s key) = decimal (digit_run tail)).
Proof.
  intros H.
  specialize (H "VmRSS: 9223372036854775808" "VmRSS:" 0%nat 7%nat "9223372036854775808"
                (or_introl eq_refl) eq_refl eq_refl eq_refl).
  vm_compute in H. discriminate H.
Qed.

(** C5.  The parser returns [OK] and [1234] on the line
    ["VmRSS:      1234 kB"] with the key ["VmRSS:"], and the working-set
    query that meets this line returns [1234 * 1024 = 1263616], whatever
    follows the line. *)
Theorem C5_fixture_line (g : option rusage) (rest : list string) :
  parseStatus "VmRSS:      1234 kB" "VmRSS:" = mkResult OK 1234 /\
  scan "VmRSS:" ("VmRSS:      1234 kB" :: rest) = (1263616, rest) /\
  getWorkingSetSize (mkOS g (Some "VmRSS:      1234 kB")) = 1263616 /\
  1234 * 1024 = 1263616.
Proof. repeat split. Qed.

(** C6.  A line in which the key is found (at [p]) and that holds no digit
    at or after position [p + 6] is parsed to [VALUE_NOT_FOUND] with value
    [0]; a memory query that reaches it (the lines before it do not hold
    the key) returns [0] and leaves every later line unread. *)
Theorem C6_value_not_found_stops (s key : string) (p : nat) (before later : list string) :
  find s key = Some p ->
  (forall i c, (p + 6 <= i)%nat -> String.get i s = Some c -> isdigit c = false) ->
  (forall x, In x before -> ~ occurs key x) ->
  parseStatus s key = mkResult VALUE_NOT_FOUND 0 /\
  scan key (before ++ s :: later) = (0, later) /\
  (forall os content,
     proc_self_status os = Some content ->
     read_lines content = (before ++ s :: later)%list ->
     memory_query key os = (0, Some later) /\
     (key = "VmRSS:" -> getWorkingSetSize os = 0) /\
     (key = "VmSize:" -> getPrivateMemorySize os = 0)).
Proof.
  intros Hfind Hnodigit Hbefore.
  assert (parseStatus s key = mkResult VALUE_NOT_FOUND 0) as Hparse.
  { apply (parseStatus_value_not_found s key p Hfind).
    apply find_first_of_None. intros i c Hi Hget. rewrite mem_digits. now apply (Hnodigit i). }
  assert (scan key (before ++ s :: later) = (0, later)) as Hscan.
  { rewrite scan_first_key_line; [now rewrite Hparse | exact Hbefore |].
    apply find_Some_iff_occurs. now exists p. }
  split; [exact Hparse|]. split; [exact Hscan|].
  intros os content Hopen Hlines.
  assert (memory_query key os = (0, Some later)) as Hq.
  { unfold memory_query. now rewrite Hopen, Hlines, Hscan. }
  split; [exact Hq|].
  split; intros ->; [unfold getWorkingSetSize | unfold getPrivateMemorySize]; now rewrite Hq.
Qed.

Lemma C6_witness :
  scan "VmRSS:" (["Name:   init"] ++ "VmRSS:    " :: ["VmRSS:   77 kB"]) = (0, ["VmRSS:   77 kB"]).
Proof.
  refine (proj1 (proj2 (C6_value_not_found_stops "VmRSS:    " "VmRSS:" 0
                          ["Name:   init"] ["VmRSS:   77 kB"] eq_refl _ _))).
  - intros i c Hi. do 6 (destruct i as [|i]; [lia|]).
    do 4 (destruct i as [|i]; [intros [= <-]; reflexivity|]).
    simpl. destruct i; discriminate.
  - intros x [<- | []]. apply find_None_iff. reflexivity.
Defined.

(** C7.  When [/proc/self/status] cannot be opened both memory queries
    return [0] and no line is read.  When it can be opened and no line
    holds the key, every line is parsed to [KEY_NOT_FOUND], the loop reads
    on to the end of the file, and the query returns [0]. *)
Theorem C7_unopenable_or_key_absent (os : OS) :
  (proc_self_status os = None ->
     getWorkingSetSize os = 0 /\ getPrivateMemorySize os = 0 /\
     forall key, memory_query key os = (0, None)) /\
  (forall content key,
     proc_self_status os = Some content ->
     (forall l, In l (read_lines content) -> ~ occurs key l) ->
     (forall l, In l (read_lines content) -> parseStatus l key = mkResult KEY_NOT_FOUND 0) /\
     memory_query key os = (0, Some []) /\
     (key = "VmRSS:" -> getWorkingSetSize os = 0) /\
     (key = "VmSize:" -> getPrivateMemorySize os = 0)).
Proof.
  split.
  - intros Hopen. unfold getWorkingSetSize, getPrivateMemorySize, memory_query.
    rewrite Hopen. repeat split.
  - intros content key Hopen Habsent.
    assert (memory_query key os = (0, Some [])) as Hq.
    { unfold memory_query. rewrite Hopen. now rewrite (scan_no_key key _ Habsent). }
    split.
    + intros l Hl. apply parseStatus_key_not_found. apply find_None_iff. now apply Habsent.
    + split; [exact Hq|].
      split; intros ->; [unfold getWorkingSetSize | unfold getPrivateMemorySize]; now rewrite Hq.
Qed.

Lemma C7_witness :
  getWorkingSetSize (mkOS None None) = 0 /\
  memory_query "VmSize:" (mkOS None (Some ("Name:   init" ++ LF ++ "Pid:    1" ++ LF)%string))
  = (0, Some []).
Proof.
  split.
  - exact (proj1 (proj1 (C7_unopenable_or_key_absent (mkOS None None)) eq_refl)).
  - refine (proj1 (proj2 (proj2 (C7_unopenable_or_key_absent
               (mkOS None (Some ("Name:   init" ++ LF ++ "Pid:    1" ++ LF)%string)))
               ("Name:   init" ++ LF ++ "Pid:    1" ++ LF)%string "VmSize:" eq_refl _))).
    intros l Hl. vm_compute in Hl.
    destruct Hl as [<- | [<- | []]]; apply find_None_iff; reflexivity.
Defined.

(** C10.  The key is looked for anywhere in a line.  A memory query returns
    what the first line holding the key (at whatever position) is parsed to,
    times [1024]; it leaves the lines after that line unread, so two files
    that agree up to that line give the same result. *)
Theorem C10_first_key_line_decides (os : OS) (content key l : string)
    (before after : list string) :
  proc_self_status os = Some content ->
  read_lines content = (before ++ l :: after)%list ->
  (forall x, In x before -> ~ occurs key x) ->
  occurs key l ->
  memory_query key os = (mul64 (value (parseStatus l key)) 1024, Some after) /\
  (key = "VmRSS:" -> getWorkingSetSize os = mul64 (value (parseStatus l "VmRSS:")) 1024) /\
  (key = "VmSize:" -> getPrivateMemorySize os = mul64 (value (parseStatus l "VmSize:")) 1024) /\
  (forall os' content' after',
     proc_self_status os' = Some content' ->
     read_lines content' = (before ++ l :: after')%list ->
     fst (memory_query key os') = fst (memory_query key os)).
Proof.
  intros Hopen Hlines Hbefore Hl.
  assert (forall o c a, proc_self_status o = Some c ->
                        read_lines c = (before ++ l :: a)%list ->
                        memory_query key o = (mul64 (value (parseStatus l key)) 1024, Some a)) as Hq.
  { intros o c a Ho Hc. unfold memory_query. rewrite Ho, Hc.
    now rewrite (scan_first_key_line key l before a Hbefore Hl). }
  pose proof (Hq os content after Hopen Hlines) as Hos.
  split; [exact Hos|]. split; [|split].
  - intros ->. unfold getWorkingSetSize. now rewrite Hos.
  - intros ->. unfold getPrivateMemorySize. now rewrite Hos.
  - intros os' content' after' Hopen' Hlines'.
    now rewrite Hos, (Hq os' content' after' Hopen' Hlines').
Qed.

Lemma C10_witness :
  memory_query "VmRSS:"
    (mkOS None (Some ("Name:   init" ++ LF ++ "  x VmRSS:  5 kB" ++ LF ++ "VmRSS:  9 kB" ++ LF)%string))
  = (5120, Some ["VmRSS:  9 kB"]).
Proof.
  refine (proj1 (C10_first_key_line_decides
                   (mkOS None (Some ("Name:   init" ++ LF ++ "  x VmRSS:  5 kB" ++ LF
                                     ++ "VmRSS:  9 kB" ++ LF)%string))
                   ("Name:   init" ++ LF ++ "  x VmRSS:  5 kB" ++ LF ++ "VmRSS:  9 kB" ++ LF)%string
                   "VmRSS:" "  x VmRSS:  5 kB"
                   ["Name:   init"] ["VmRSS:  9 kB"] eq_refl eq_refl _ _)).
  - intros x [<- | []]. apply find_None_iff. reflexivity.
  - exists "  x ", "  5 kB". reflexivity.
Defined.

End LinuxMemoryClaims.

Section ProcessorTimeClaims.
Import Ranges TimeFacts.

(** C4.  On Linux, for a [rusage] the system reports (non-negative times
    whose milliseconds fit the duration type), the kernel time is
    [ru_stime.tv_sec * 1000 + ru_stime.tv_usec / 1000], the user time is the
    same expression of [ru_utime], and the total is their sum.  The division
    truncates: the milliseconds returned are the largest whole number of
    milliseconds not above the time reported. *)
Theorem C4_linux_processor_times (os : Linux.OS) (ru : Linux.rusage) :
  Linux.getrusage os = Some ru ->
  rusage_in_range ru ->
  let s := Linux.ru_stime ru in
  let u := Linux.ru_utime ru in
  Linux.getKernelProcessorTime os = Linux.tv_sec s * 1000 + Linux.tv_usec s / 1000 /\
  Linux.getUserProcessorTime os = Linux.tv_sec u * 1000 + Linux.tv_usec u / 1000 /\
  Linux.getTotalProcessorTime os
  = Linux.getKernelProcessorTime os + Linux.getUserProcessorTime os /\
  (Linux.getKernelProcessorTime os * 1000
   <= Linux.tv_sec s * 1000000 + Linux.tv_usec s
   < Linux.getKernelProcessorTime os * 1000 + 1000) /\
  (Linux.getUserProcessorTime os * 1000
   <= Linux.tv_sec u * 1000000 + Linux.tv_usec u
   < Linux.getUserProcessorTime os * 1000 + 1000).
Proof.
  intros Hcall Hr s u.
  assert (Linux.call_getrusage os = ru) as Hru by (unfold Linux.call_getrusage; now rewrite Hcall).
  pose proof (Linux_times_eq os) as H. rewrite Hru in H. specialize (H Hr).
  cbv zeta in H. fold s u in H. destruct H as (Hk & Hu & Ht).
  repeat split; try assumption; rewrite ?Hk, ?Hu; Z.div_mod_to_equations; lia.
Qed.

Lemma C4_witness :
  Linux.getKernelProcessorTime
    (Linux.mkOS (Some (Linux.mkRusage (Linux.mkTimeval 2 345999) (Linux.mkTimeval 1 999))) None)
  = 1 * 1000 + 999 / 1000.
Proof.
  refine (proj1 (C4_linux_processor_times
                   (Linux.mkOS (Some (Linux.mkRusage (Linux.mkTimeval 2 345999)
                                                     (Linux.mkTimeval 1 999))) None)
                   (Linux.mkRusage (Linux.mkTimeval 2 345999) (Linux.mkTimeval 1 999))
                   eq_refl _)).
  unfold rusage_in_range, timeval_in_range, LLONG_MAX. simpl. lia.
Defined.

(** C8.  On Windows, for the [FILETIME]s the timing query writes (two
    32-bit words each), the kernel and the user duration are the 64-bit
    value whose bits 0-31 are the low word and whose bits 32-63 are the
    high word, that is [low + high * 2^32] ticks of 100 ns; the
    milliseconds returned are the quotient of that value by [10000] in the
    integers, remainder dropped. *)
Theorem C8_win32_ticks_to_milliseconds (os : Win32.OS) (t : Win32.ProcessTimes) :
  Win32.GetProcessTimes os = Some t ->
  FILETIME_in_range (Win32.kernelTime t) ->
  FILETIME_in_range (Win32.userTime t) ->
  (forall ft, ft = Win32.kernelTime t \/ ft = Win32.userTime t ->
     Win32.ticks ft = Win32.dwLowDateTime ft + Win32.dwHighDateTime ft * 2 ^ 32 /\
     forall i,
       (0 <= i < 32 -> Z.testbit (Win32.ticks ft) i = Z.testbit (Win32.dwLowDateTime ft) i) /\
       (32 <= i < 64 ->
        Z.testbit (Win32.ticks ft) i = Z.testbit (Win32.dwHighDateTime ft) (i - 32))) /\
  Win32.getKernelProcessorTime os = Win32.ticks (Win32.kernelTime t) / 10000 /\
  Win32.getUserProcessorTime os = Win32.ticks (Win32.userTime t) / 10000 /\
  (10000 * Win32.getKernelProcessorTime os
   <= Win32.ticks (Win32.kernelTime t)
   < 10000 * Win32.getKernelProcessorTime os + 10000) /\
  (10000 * Win32.getUserProcessorTime os
   <= Win32.ticks (Win32.userTime t)
   < 10000 * Win32.getUserProcessorTime os + 10000).
Proof.
  intros Hcall Hk Hu.
  assert (Win32.call_GetProcessTimes os = t) as Ht
    by (unfold Win32.call_GetProcessTimes; now rewrite Hcall).
  pose proof (Win32_kernel_eq os) as Ek. pose proof (Win32_user_eq os) as Eu.
  rewrite Ht in Ek, Eu. specialize (Ek Hk). specialize (Eu Hu).
  rewrite <- (ticks_eq _ Hk) in Ek. rewrite <- (ticks_eq _ Hu) in Eu.
  split; [|repeat split; try assumption; rewrite ?Ek, ?Eu; Z.div_mod_to_equations; lia].
  intros ft [-> | ->]; (split; [now apply ticks_eq | intros i; now apply ticks_bits]).
Qed.

Lemma C8_witness :
  Win32.getKernelProcessorTime
    (Win32.mkOS (Some (Win32.mkProcessTimes Win32.FILETIME_zero Win32.FILETIME_zero
                         (Win32.mkFILETIME 123456 2) (Win32.mkFILETIME 9999 0))) None)
  = Win32.ticks (Win32.mkFILETIME 123456 2) / 10000.
Proof.
  refine (proj1 (proj2 (C8_win32_ticks_to_milliseconds
                          (Win32.mkOS (Some (Win32.mkProcessTimes Win32.FILETIME_zero
                                               Win32.FILETIME_zero (Win32.mkFILETIME 123456 2)
                                               (Win32.mkFILETIME 9999 0))) None)
                          (Win32.mkProcessTimes Win32.FILETIME_zero Win32.FILETIME_zero
                             (Win32.mkFILETIME 123456 2) (Win32.mkFILETIME 9999 0))
                          eq_refl _ _)));
    unfold FILETIME_in_range, is_uint32, UINT32_MOD; simpl; lia.
Defined.

(** C1, as the code has it.  For times in range, on Linux, on macOS and on
    the other platforms the total is the kernel time plus the user time,
    in milliseconds.  On Windows the total is the sum of the two tick counts
    converted once, [(kernel ticks + user ticks) / 10000]; it is the sum of
    the kernel and user milliseconds, or that sum plus one. *)
Theorem C1_total_processor_time (t : Target) :
  times_in_range t ->
  exists k u tot,
    Process.getKernelProcessorTime t = Returns k /\
    Process.getUserProcessorTime t = Returns u /\
    Process.getTotalProcessorTime t = Returns tot /\
    match t with
    | OnWin32 os =>
        tot = (Win32.ticks (Win32.kernelTime (Win32.call_GetProcessTimes os)) +
               Win32.ticks (Win32.userTime (Win32.call_GetProcessTimes os))) / 10000 /\
        k + u <= tot <= k + u + 1
    | _ => tot = k + u
    end.
Proof.
  destruct t as [os | os | os tb | ]; cbn [times_in_range Process.getKernelProcessorTime
    Process.getUserProcessorTime Process.getTotalProcessorTime].
  - intros (Hk & Hu & Hsum). do 3 eexists. repeat split.
    + rewrite (Win32_total_eq os Hk Hu), (ticks_eq _ Hk), (ticks_eq _ Hu).
      pose proof (FILETIME_ticks_range _ Hk) as Rk. pose proof (FILETIME_ticks_range _ Hu) as Ru.
      unfold is_uint64 in *. now rewrite Z.mod_small by lia.
    + rewrite (Win32_total_eq os Hk Hu), (Win32_kernel_eq os Hk), (Win32_user_eq os Hu).
      pose proof (FILETIME_ticks_range _ Hk) as Rk. pose proof (FILETIME_ticks_range _ Hu) as Ru.
      unfold is_uint64 in *. rewrite Z.mod_small by lia. Z.div_mod_to_equations. lia.
    + rewrite (Win32_total_eq os Hk Hu), (Win32_kernel_eq os Hk), (Win32_user_eq os Hu).
      pose proof (FILETIME_ticks_range _ Hk) as Rk. pose proof (FILETIME_ticks_range _ Hu) as Ru.
      unfold is_uint64 in *. rewrite Z.mod_small by lia. Z.div_mod_to_equations. lia.
  - intros Hr. do 3 eexists. repeat split. apply (Linux_times_eq os Hr).
  - intros [(Hn & Hd & Hd0) _].
    assert (0 < Apple.denom (Apple.init_time_base os tb)) as Hpos by (unfold is_uint32 in Hd; lia).
    destruct (Apple_queries_eq os tb Hpos) as (-> & -> & ->). cbn [snd].
    do 3 eexists. repeat split.
  - intros _. exists 0, 0, 0. repeat split.
Qed.

Lemma C1_witness :
  let t := OnLinux (Linux.mkOS (Some (Linux.mkRusage (Linux.mkTimeval 2 345999)
                                                     (Linux.mkTimeval 1 999))) None) in
  exists k u tot,
    Process.getKernelProcessorTime t = Returns k /\
    Process.getUserProcessorTime t = Returns u /\
    Process.getTotalProcessorTime t = Returns tot /\
    tot = k + u.
Proof.
  intros t. apply (C1_total_processor_time t).
  unfold times_in_range, rusage_in_range, timeval_in_range, LLONG_MAX. simpl.
  Z.div_mod_to_equations. lia.
Defined.

(** C1 as it is stated fails on Windows: with 5000 kernel ticks and 5000
    user ticks the kernel and the user time are 0 ms and the total is
    1 ms. *)
Lemma C1_counterexample :
  ~ (forall t : Target,
       times_in_range t ->
       forall k u tot,
         Process.getKernelProcessorTime t = Returns k ->
         Process.getUserProcessorTime t = Returns u ->
         Process.getTotalProcessorTime t = Returns tot ->
         tot = k + u).
Proof.
  intros H.
  specialize (H (OnWin32 (Win32.mkOS
                   (Some (Win32.mkProcessTimes Win32.FILETIME_zero Win32.FILETIME_zero
                            (Win32.mkFILETIME 5000 0) (Win32.mkFILETIME 5000 0)))
                   None))).
  assert (1 = 0 + 0) as Habs; [|discriminate Habs].
  apply H; [|reflexivity..].
  unfold times_in_range, ProcessTimes_in_range, FILETIME_in_range, FILETIME_ticks,
    is_uint32, UINT32_MOD, UINT64_MOD.
  simpl. lia.
Qed.

(** C9.  Take two calls on the same platform such that each of the kernel
    and the user time the system reports at the second call (the
    microseconds of the [timeval] on Linux, the 64-bit tick count of the
    [FILETIME] on Windows, the tick count on macOS) is at least what it was
    at the first, both in range.  Then each of the kernel, user and total
    times returned at the second call is at least the one returned at the
    first.  Time may have moved a field down while the time it stands for
    went up, as from 1 s 999999 us to 2 s 0 us; the case where every raw
    field on its own is at least what it was is [snapshot_fields_le], a
    special case by [snapshot_fields_le_le]. *)
Theorem C9_processor_times_monotone (t1 t2 : Target) (q : Query) :
  times_in_range t1 ->
  times_in_range t2 ->
  snapshot_le t1 t2 ->
  is_time_query q = true ->
  exists v1 v2,
    Process.run q t1 = Returns v1 /\ Process.run q t2 = Returns v2 /\ v1 <= v2.
Proof.
  intros H1 H2 Hle Hq.
  destruct t1 as [os1 | os1 | os1 tb1 | ], t2 as [os2 | os2 | os2 tb2 | ];
    cbn [snapshot_le] in Hle; try contradiction; cbn [times_in_range] in H1, H2.
  - destruct H1 as (Hk1 & Hu1 & Hs1), H2 as (Hk2 & Hu2 & Hs2), Hle as [Lk Lu].
    pose proof (FILETIME_ticks_range _ Hk1). pose proof (FILETIME_ticks_range _ Hu1).
    pose proof (FILETIME_ticks_range _ Hk2). pose proof (FILETIME_ticks_range _ Hu2).
    unfold is_uint64 in *.
    destruct q; try discriminate Hq; cbn [Process.run Process.getKernelProcessorTime
      Process.getUserProcessorTime Process.getTotalProcessorTime]; do 2 eexists;
      (split; [reflexivity|]); (split; [reflexivity|]).
    + rewrite (Win32_kernel_eq os1 Hk1), (Win32_kernel_eq os2 Hk2). apply Z.div_le_mono; lia.
    + rewrite (Win32_user_eq os1 Hu1), (Win32_user_eq os2 Hu2). apply Z.div_le_mono; lia.
    + rewrite (Win32_total_eq os1 Hk1 Hu1), (Win32_total_eq os2 Hk2 Hu2).
      rewrite !Z.mod_small by lia. apply Z.div_le_mono; lia.
  - destruct (Linux_times_eq os1 H1) as (Ek1 & Eu1 & Et1).
    destruct (Linux_times_eq os2 H2) as (Ek2 & Eu2 & Et2).
    rewrite timeval_ms_floor in Ek1, Eu1, Ek2, Eu2.
    destruct Hle as [Ls Lu].
    assert (Linux.getKernelProcessorTime os1 <= Linux.getKernelProcessorTime os2) as Mk
      by (rewrite Ek1, Ek2; apply Z.div_le_mono; lia).
    assert (Linux.getUserProcessorTime os1 <= Linux.getUserProcessorTime os2) as Mu
      by (rewrite Eu1, Eu2; apply Z.div_le_mono; lia).
    destruct q; try discriminate Hq; cbn [Process.run Process.getKernelProcessorTime
      Process.getUserProcessorTime Process.getTotalProcessorTime]; do 2 eexists;
      (split; [reflexivity|]); (split; [reflexivity|]); lia.
  - destruct Hle as (Htb & Ls & Lu).
    destruct H1 as [B1 (Rs1 & Ru1 & Ms1 & Mu1)].
    assert (Apple.init_time_base os2 tb2 = Apple.init_time_base os1 tb1) as He.
    { subst tb2. unfold Apple.init_time_base at 1.
      destruct B1 as (_ & _ & Hd0). apply Z.eqb_neq in Hd0. now rewrite Hd0. }
    rewrite He in H2. destruct H2 as [_ (Rs2 & Ru2 & Ms2 & Mu2)].
    assert (0 < Apple.denom (Apple.init_time_base os1 tb1)) as Hpos
      by (destruct B1 as (_ & Hd & Hd0); unfold is_uint32 in Hd; lia).
    assert (0 < Apple.denom (Apple.init_time_base os2 tb2)) as Hpos2 by now rewrite He.
    destruct (Apple_queries_eq os1 tb1 Hpos) as (Ek1 & Eu1 & Et1).
    destruct (Apple_queries_eq os2 tb2 Hpos2) as (Ek2 & Eu2 & Et2).
    rewrite He in Ek2, Eu2, Et2.
    pose proof (Apple_ms_mono _ _ _ B1 Rs1 Rs2 Ms1 Ms2 Ls) as Ms.
    pose proof (Apple_ms_mono _ _ _ B1 Ru1 Ru2 Mu1 Mu2 Lu) as Mu.
    destruct q; try discriminate Hq; cbn [Process.run Process.getKernelProcessorTime
      Process.getUserProcessorTime Process.getTotalProcessorTime];
      rewrite ?Ek1, ?Ek2, ?Eu1, ?Eu2, ?Et1, ?Et2; cbn [snd]; do 2 eexists;
      (split; [reflexivity|]); (split; [reflexivity|]); lia.
  - destruct q; try discriminate Hq; exists 0, 0; repeat split; lia.
Qed.

(** On Linux from 1 s 999999 us to 2 s 0 us (kernel) and from 0 s 999 us to
    1 s 0 us (user); on Windows across a wrap of the low word; on macOS with
    the time base the first call has written. *)
Lemma C9_witness :
  let l1 := OnLinux (Linux.mkOS (Some (Linux.mkRusage (Linux.mkTimeval 0 999)
                                                      (Linux.mkTimeval 1 999999))) None) in
  let l2 := OnLinux (Linux.mkOS (Some (Linux.mkRusage (Linux.mkTimeval 1 0)
                                                      (Linux.mkTimeval 2 0))) None) in
  let w1 := OnWin32 (Win32.mkOS (Some (Win32.mkProcessTimes Win32.FILETIME_zero
                                         Win32.FILETIME_zero (Win32.mkFILETIME 4294967295 0)
                                         (Win32.mkFILETIME 5 0))) None) in
  let w2 := OnWin32 (Win32.mkOS (Some (Win32.mkProcessTimes Win32.FILETIME_zero
                                         Win32.FILETIME_zero (Win32.mkFILETIME 3 1)
                                         (Win32.mkFILETIME 5 0))) None) in
  let a1 := OnApple (Apple.mkOS (Some (Apple.mkRusageInfo 24000000 48000000)) None
                       (Apple.mkTimebase 125 3)) Apple.time_base_initial in
  let a2 := OnApple (Apple.mkOS (Some (Apple.mkRusageInfo 30000000 48000000)) None
                       (Apple.mkTimebase 125 3)) (Apple.mkTimebase 125 3) in
  (exists v1 v2,
     Process.run KernelProcessorTime l1 = Returns v1 /\
     Process.run KernelProcessorTime l2 = Returns v2 /\ v1 <= v2) /\
  (exists v1 v2,
     Process.run KernelProcessorTime w1 = Returns v1 /\
     Process.run KernelProcessorTime w2 = Returns v2 /\ v1 <= v2) /\
  (exists v1 v2,
     Process.run TotalProcessorTime a1 = Returns v1 /\
     Process.run TotalProcessorTime a2 = Returns v2 /\ v1 <= v2).
Proof.
  intros l1 l2 w1 w2 a1 a2. split; [|split].
  - apply (C9_processor_times_monotone l1 l2 KernelProcessorTime).
    + repeat split; vm_compute; try reflexivity; intros; discriminate.
    + repeat split; vm_compute; try reflexivity; intros; discriminate.
    + repeat split; vm_compute; try reflexivity; intros; discriminate.
    + reflexivity.
  - apply (C9_processor_times_monotone w1 w2 KernelProcessorTime).
    + repeat split; vm_compute; try reflexivity; intros; discriminate.
    + repeat split; vm_compute; try reflexivity; intros; discriminate.
    + repeat split; vm_compute; try reflexivity; intros; discriminate.
    + reflexivity.
  - apply (C9_processor_times_monotone a1 a2 TotalProcessorTime).
    + repeat split; vm_compute; try reflexivity; intros; discriminate.
    + repeat split; vm_compute; try reflexivity; intros; discriminate.
    + repeat split; vm_compute; try reflexivity; intros; discriminate.
    + reflexivity.
Defined.

End ProcessorTimeClaims.

Section FailSoftClaim.
Import Ranges Failures TimeFacts LinuxFailureFacts.

(** C3, as the code has it.  Each of the five queries, on the Windows, the
    Linux and the fallback implementation, returns a value, whatever the
    system calls answer and whatever the status file holds; so do the two
    memory queries on macOS, and the three time queries on macOS as long as
    the time base in use has a denominator other than zero (they divide by
    it).  When the source of the query fails (a system call fails, the
    status file cannot be opened, or it holds no usable value for the key)
    the value returned is [0]. *)
Theorem C3_queries_return (q : Query) (t : Target) :
  timebase_nonzero q t ->
  exists v, Process.run q t = Returns v /\ (source_failed q t -> v = 0).
Proof.
  intros Htb. destruct t as [os | os | os tb | ].
  - destruct q; cbn [Process.run Process.getKernelProcessorTime Process.getUserProcessorTime
      Process.getTotalProcessorTime Process.getWorkingSetSize Process.getPrivateMemorySize];
      eexists; (split; [reflexivity|]); cbn [source_failed is_time_query]; intros Hf.
    + unfold Win32.getKernelProcessorTime, Win32.call_GetProcessTimes. now rewrite Hf.
    + unfold Win32.getUserProcessorTime, Win32.call_GetProcessTimes. now rewrite Hf.
    + unfold Win32.getTotalProcessorTime, Win32.call_GetProcessTimes. now rewrite Hf.
    + unfold Win32.getWorkingSetSize, Win32.call_GetProcessMemoryInfo. now rewrite Hf.
    + unfold Win32.getPrivateMemorySize, Win32.call_GetProcessMemoryInfo. now rewrite Hf.
  - destruct q; cbn [Process.run Process.getKernelProcessorTime Process.getUserProcessorTime
      Process.getTotalProcessorTime Process.getWorkingSetSize Process.getPrivateMemorySize];
      eexists; (split; [reflexivity|]); cbn [source_failed]; intros Hf.
    + unfold Linux.getKernelProcessorTime, Linux.call_getrusage. now rewrite Hf.
    + unfold Linux.getUserProcessorTime, Linux.call_getrusage. now rewrite Hf.
    + unfold Linux.getTotalProcessorTime, Linux.call_getrusage. now rewrite Hf.
    + now apply memory_query_unusable.
    + now apply memory_query_unusable.
  - cbn [timebase_nonzero] in Htb.
    pose proof (fun H => Apple_result_returns os tb (Apple.call_proc_pid_rusage os) (Htb H)) as Hr.
    cbv zeta in Hr.
    destruct q; cbn [is_time_query] in Hr; try specialize (Hr eq_refl);
      cbn [Process.run Process.getKernelProcessorTime Process.getUserProcessorTime
        Process.getTotalProcessorTime Process.getWorkingSetSize Process.getPrivateMemorySize];
      unfold Apple.getKernelProcessorTime, Apple.getUserProcessorTime,
        Apple.getTotalProcessorTime, Apple.time_query;
      try (destruct (Apple.ProcPidRUsageResult_of os tb (Apple.call_proc_pid_rusage os))
             as [e r] eqn:E; cbn [snd] in Hr |- *; rewrite Hr; cbn [bind]);
      eexists; (split; [reflexivity|]); cbn [source_failed is_time_query]; intros Hf.
    + cbn [Apple.sysTime]. unfold Apple.call_proc_pid_rusage. rewrite Hf.
      cbn [Apple.ri_system_time]. now rewrite Apple_ms_zero.
    + cbn [Apple.userTime]. unfold Apple.call_proc_pid_rusage. rewrite Hf.
      cbn [Apple.ri_user_time]. now rewrite Apple_ms_zero.
    + cbn [Apple.totalTime]. unfold Apple.call_proc_pid_rusage. rewrite Hf.
      cbn [Apple.ri_system_time Apple.ri_user_time]. now rewrite Apple_ms_zero.
    + unfold Apple.getWorkingSetSize, Apple.call_proc_pidinfo. now rewrite Hf.
    + unfold Apple.getPrivateMemorySize, Apple.call_proc_pidinfo. now rewrite Hf.
  - destruct q; exists 0; split; reflexivity.
Qed.

Lemma C3_witness :
  exists v,
    Process.run TotalProcessorTime
      (OnApple (Apple.mkOS None None (Apple.mkTimebase 125 3)) Apple.time_base_initial)
    = Returns v /\
    (source_failed TotalProcessorTime
       (OnApple (Apple.mkOS None None (Apple.mkTimebase 125 3)) Apple.time_base_initial) ->
     v = 0).
Proof.
  apply (C3_queries_return TotalProcessorTime
           (OnApple (Apple.mkOS None None (Apple.mkTimebase 125 3)) Apple.time_base_initial)).
  simpl. intros _. discriminate.
Defined.

(** C3 as it is stated fails on macOS: when [mach_timebase_info] leaves the
    denominator of the time base at zero, a time query divides by zero. *)
Lemma C3_counterexample :
  ~ (forall (q : Query) (t : Target), exists v, Process.run q t = Returns v).
Proof.
  intros H.
  destruct (H KernelProcessorTime
              (OnApple (Apple.mkOS (Some (Apple.mkRusageInfo 24000000 48000000)) None
                          (Apple.mkTimebase 0 0))
                       Apple.time_base_initial)) as [v Hv].
  vm_compute in Hv. discriminate Hv.
Qed.

End FailSoftClaim.

(** * Further properties of the code *)

(** ** The parser *)

Module ParserMoreFacts.
Import StdString StringSpec MoreSpec StringFacts Parser ParserFacts.

(** [find] returns the first occurrence, and only that. *)
Lemma first_occurrence_find (key s : string) (p : nat) :
  first_occurrence key s p <-> find s key = Some p.
Proof.
  split.
  - intros [(pre & post & Hs & Hlen) Hmin].
    destruct (find s key) as [p'|] eqn:E.
    + pose proof (find_Some_first _ _ _ E pre post Hs) as H1.
      destruct (find_Some_occurs _ _ _ E) as (pre' & post' & Hs' & Hlen').
      pose proof (Hmin pre' post' Hs') as H2. f_equal. lia.
    + apply find_None_iff in E. exfalso. apply E. now exists pre, post.
  - intros E. split; [exact (find_Some_occurs _ _ _ E) | exact (find_Some_first _ _ _ E)].
Qed.

Lemma find_first_of_digits_None (s : string) (pos : nat) :
  find_first_of s "0123456789" pos = None <->
  (forall i, (pos <= i)%nat -> ~ digit_at s i).
Proof.
  rewrite find_first_of_None. split.
  - intros H i Hi (c & Hget & Hd). rewrite <- mem_digits in Hd.
    rewrite (H i c Hi Hget) in Hd. discriminate.
  - intros H i c Hi Hget. rewrite mem_digits.
    destruct (isdigit c) eqn:E; [|reflexivity].
    exfalso. apply (H i Hi). now exists c.
Qed.

Lemma find_first_of_digits_Some (s : string) (pos q : nat) :
  find_first_of s "0123456789" pos = Some q -> (pos <= q)%nat /\ digit_at s q.
Proof.
  intros H. destruct (find_first_of_Some _ _ _ _ H) as (Hle & (c & Hget & Hm) & _).
  split; [exact Hle|]. exists c. now rewrite <- mem_digits.
Qed.

End ParserMoreFacts.

Section ParserProperties.
Import StdString StringSpec MoreSpec StringFacts Parser ParserFacts ParserMoreFacts.

(** X1.  Whatever the line and the key, the value the parser returns lies
    between [0] and [LLONG_MAX]: the unsigned result never has its top bit
    set.  It is [0] whenever the result type is not [OK]. *)
Theorem X1_parseStatus_value_range (s key : string) :
  0 <= value (parseStatus s key) <= LLONG_MAX /\
  (resultType (parseStatus s key) <> OK -> value (parseStatus s key) = 0).
Proof.
  destruct (find s key) as [p|] eqn:Hk.
  - destruct (find_first_of s "0123456789" (p + 6)) as [q|] eqn:Hv.
    + destruct (parseStatus_ok _ _ _ _ Hk Hv) as (tail & _ & _ & ->). cbn [value resultType].
      pose proof (decimal_digit_run_nonneg tail) as Hn.
      destruct (decimal (digit_run tail) <=? LLONG_MAX) eqn:E.
      * apply Z.leb_le in E. split; [lia | congruence].
      * unfold LLONG_MAX. split; [lia | congruence].
    + rewrite (parseStatus_value_not_found _ _ _ Hk Hv). cbn. unfold LLONG_MAX. split; [lia | reflexivity].
  - rewrite (parseStatus_key_not_found _ _ Hk). cbn. unfold LLONG_MAX. split; [lia | reflexivity].
Qed.

(** X2.  What each result type means.  [KEY_NOT_FOUND]: the key occurs
    nowhere in the line.  Otherwise let [p] be the first position at which
    the key stands; [VALUE_NOT_FOUND]: the line holds no digit at or after
    position [p + 6]; [OK]: it holds one.  Only the first occurrence of the
    key counts, and the offset is 6 whatever the length of the key. *)
Theorem X2_parseStatus_classification (s key : string) :
  (resultType (parseStatus s key) = KEY_NOT_FOUND <-> ~ occurs key s) /\
  (forall p, first_occurrence key s p ->
     (resultType (parseStatus s key) = VALUE_NOT_FOUND <->
      forall i, (p + 6 <= i)%nat -> ~ digit_at s i) /\
     (resultType (parseStatus s key) = OK <->
      exists q, (p + 6 <= q)%nat /\ digit_at s q)).
Proof.
  split; [apply parseStatus_KEY_NOT_FOUND_iff|].
  intros p Hp. apply first_occurrence_find in Hp.
  destruct (find_first_of s "0123456789" (p + 6)) as [q|] eqn:Hv.
  - destruct (parseStatus_ok _ _ _ _ Hp Hv) as (tail & _ & _ & ->). cbn [resultType].
    destruct (find_first_of_digits_Some _ _ _ Hv) as [Hle Hd].
    split; split; try discriminate; try reflexivity.
    + intros H. exfalso. exact (H q Hle Hd).
    + intros _. now exists q.
  - rewrite (parseStatus_value_not_found _ _ _ Hp Hv). cbn [resultType].
    pose proof (proj1 (find_first_of_digits_None _ _) Hv) as Hno.
    split; split; try discriminate; try reflexivity.
    + intros _. exact Hno.
    + intros (q & Hle & Hd). exfalso. exact (Hno q Hle Hd).
Qed.

Lemma X2_witness :
  resultType (parseStatus "Pid:   42" "Pid:") = OK <->
  exists q, (0 + 6 <= q)%nat /\ digit_at "Pid:   42" q.
Proof.
  refine (proj2 (proj2 (X2_parseStatus_classification "Pid:   42" "Pid:") 0%nat _)).
  apply first_occurrence_find. reflexivity.
Defined.

End ParserProperties.

Module AppendFacts.
Import StdString StringSpec StringFacts Parser ParserFacts.

Lemma length_app (a b : string) :
  String.length (a ++ b) = (String.length a + String.length b)%nat.
Proof. induction a as [|c a IH]; simpl; [reflexivity | now rewrite IH]. Qed.

Lemma app_assoc (a b c : string) : ((a ++ b) ++ c = a ++ (b ++ c))%string.
Proof. induction a as [|d a IH]; simpl; [reflexivity | now rewrite IH]. Qed.

(** A prefix of [a ++ b] that is no longer than [a] is a prefix of [a]. *)
Lemma prefix_of_app (k a b post : string) :
  (a ++ b = k ++ post)%string -> (String.length k <= String.length a)%nat ->
  exists post', a = (k ++ post')%string.
Proof.
  revert a. induction k as [|c k IH]; intros a H Hlen; simpl in *.
  - now exists a.
  - destruct a as [|d a]; simpl in *; [lia|].
    injection H as -> H. destruct (IH a H) as [post' ->]; [lia|]. now exists post'.
Qed.

Lemma find_Some_length (s key : string) (p : nat) :
  find s key = Some p -> (p + String.length key <= String.length s)%nat.
Proof.
  intros H. destruct (find_Some_occurs _ _ _ H) as (pre & post & -> & <-).
  rewrite !length_app. lia.
Qed.

(** Text appended to a line does not move the key found in it. *)
Lemma find_app (s key t : string) (p : nat) :
  find s key = Some p -> find (s ++ t) key = Some p.
Proof.
  revert p. induction s as [|c s IH]; intros p.
  - rewrite find_nil. destruct (String.prefix key EmptyString) eqn:E; [|discriminate].
    intros [= <-]. apply prefix_iff in E. destruct E as [post E].
    destruct key; [|discriminate]. simpl. destruct t; reflexivity.
  - rewrite find_cons. simpl append. rewrite find_cons.
    destruct (String.prefix key (String c s)) eqn:E.
    + intros [= <-]. apply prefix_iff in E. destruct E as [post E].
      replace (String.prefix key (String c (s ++ t))) with true; [reflexivity|].
      symmetry. apply prefix_iff. exists (post ++ t)%string.
      change (String c (s ++ t)) with (String c s ++ t)%string. rewrite E. apply app_assoc.
    + destruct (find s key) as [n|] eqn:F; [|discriminate]. cbn [option_map]. intros [= <-].
      rewrite (IH n eq_refl). cbn [option_map].
      destruct (String.prefix key (String c (s ++ t))) eqn:E'; [|reflexivity].
      exfalso. apply prefix_iff in E'. destruct E' as [post E'].
      pose proof (find_Some_length _ _ _ F) as Hlen.
      destruct (prefix_of_app key (String c s) t post E') as [post' Hp]; [simpl; lia|].
      assert (String.prefix key (String c s) = true) by (apply prefix_iff; now exists post').
      congruence.
Qed.

Lemma find_first_of_app (s chars t : string) (pos q : nat) :
  find_first_of s chars pos = Some q -> find_first_of (s ++ t) chars pos = Some q.
Proof.
  revert pos q. induction s as [|c s IH]; intros pos q; simpl; [discriminate|].
  destruct pos as [|pos].
  - destruct (mem c chars); [trivial|].
    destruct (find_first_of s chars 0) as [n|] eqn:F; [|discriminate].
    simpl. intros [= <-]. now rewrite (IH _ _ F).
  - destruct (find_first_of s chars pos) as [n|] eqn:F; [|discriminate].
    simpl. intros [= <-]. now rewrite (IH _ _ F).
Qed.

Lemma substr_0 (s : string) : substr s 0 = Returns s.
Proof. destruct s; reflexivity. Qed.

Lemma substr_app (s t : string) (q : nat) (tail : string) :
  substr s q = Returns tail -> substr (s ++ t) q = Returns (tail ++ t)%string.
Proof.
  revert s. induction q as [|q IH]; intros s.
  - rewrite !substr_0. now intros [= <-].
  - destruct s as [|c s]; simpl; [discriminate | apply IH].
Qed.

(** A digit run ends at a character that is no digit, whatever follows. *)
Lemma digit_run_app_stop (tail : string) (c : ascii) (t : string) :
  isdigit c = false -> digit_run (tail ++ String c t) = digit_run tail.
Proof.
  intros Hc. induction tail as [|d tail IH]; simpl.
  - now rewrite Hc.
  - destruct (isdigit d); [now rewrite IH | reflexivity].
Qed.

End AppendFacts.

Section ParserAppendProperty.
Import StdString StringSpec StringFacts Parser ParserFacts AppendFacts.

(** X3.  Once a line is parsed to [OK], a character that is no digit and
    any text after it can be appended to the line without changing what the
    parser returns: the unit and whatever follows the number are ignored. *)
Theorem X3_parseStatus_ignores_what_follows (s key : string) (c : ascii) (t : string) :
  resultType (parseStatus s key) = OK ->
  isdigit c = false ->
  parseStatus (s ++ String c t) key = parseStatus s key.
Proof.
  intros Hok Hc.
  destruct (find s key) as [p|] eqn:Hk;
    [|rewrite (parseStatus_key_not_found _ _ Hk) in Hok; discriminate].
  destruct (find_first_of s "0123456789" (p + 6)) as [q|] eqn:Hv;
    [|rewrite (parseStatus_value_not_found _ _ _ Hk Hv) in Hok; discriminate].
  destruct (parseStatus_ok _ _ _ _ Hk Hv) as (tail & Hsub & _ & ->).
  destruct (parseStatus_ok _ _ _ _ (find_app s key (String c t) p Hk)
              (find_first_of_app s _ (String c t) _ _ Hv)) as (tail' & Hsub' & _ & ->).
  rewrite (substr_app _ (String c t) _ _ Hsub) in Hsub'. injection Hsub' as <-.
  now rewrite (digit_run_app_stop tail c t Hc).
Qed.

Lemma X3_witness :
  parseStatus ("VmRSS:   512" ++ String " "%char "kB and more 99") "VmRSS:"
  = parseStatus "VmRSS:   512" "VmRSS:".
Proof.
  apply (X3_parseStatus_ignores_what_follows "VmRSS:   512" "VmRSS:" " "%char "kB and more 99");
    reflexivity.
Defined.

End ParserAppendProperty.

(** ** The memory queries on Linux *)

Module LinuxMemoryMoreFacts.
Import StdString StringSpec StringFacts Parser ParserFacts Linux LinuxMemoryFacts LinuxStream.

Lemma mul64_1024_range (v : Z) :
  0 <= mul64 v 1024 < UINT64_MOD /\ mul64 v 1024 mod 1024 = 0.
Proof.
  unfold mul64, to_uint64, UINT64_MOD.
  change (2 ^ 64) with 18446744073709551616.
  Z.div_mod_to_equations. lia.
Qed.

Lemma scan_range (key : string) (lines : list string) :
  0 <= fst (scan key lines) < UINT64_MOD /\ fst (scan key lines) mod 1024 = 0.
Proof.
  induction lines as [|l lines IH]; simpl.
  - unfold UINT64_MOD. split; [lia | reflexivity].
  - destruct (resultType (parseStatus l key)); [exact IH | |]; apply mul64_1024_range.
Qed.

Lemma scan_remove (key x : string) (l1 l2 : list string) :
  ~ occurs key x -> fst (scan key (l1 ++ x :: l2)) = fst (scan key (l1 ++ l2)).
Proof.
  intros Hx. induction l1 as [|a l1 IH]; simpl.
  - now rewrite (proj2 (parseStatus_KEY_NOT_FOUND_iff x key) Hx).
  - destruct (resultType (parseStatus a key)); [exact IH | reflexivity | reflexivity].
Qed.

(** A successful [getline] leaves less to read. *)
Lemma getline_shortens (input l rest : string) :
  getline input = Some (l, rest) -> (String.length rest < String.length input)%nat.
Proof.
  revert l rest. induction input as [|c input IH]; intros l rest; simpl; [discriminate|].
  destruct (Ascii.eqb c "010"%char).
  - intros [= _ <-]. lia.
  - destruct (getline input) as [[l' rest']|] eqn:E.
    + intros [= _ <-]. specialize (IH _ _ eq_refl). lia.
    + intros [= _ <-]. simpl. lia.
Qed.

Lemma scan_stream_enough (fuel : nat) (key input : string) :
  (String.length input < fuel)%nat ->
  scan_stream fuel key input = Some (fst (scan key (read_lines input))).
Proof.
  revert input. induction fuel as [|fuel IH]; intros input Hlen; [lia|].
  cbn [scan_stream]. pose proof (getline_read_lines input) as Hg.
  destruct (getline input) as [[l rest]|] eqn:E.
  - rewrite Hg. cbn [scan]. pose proof (getline_shortens _ _ _ E) as Hs.
    destruct (resultType (parseStatus l key)); [apply IH; lia | reflexivity | reflexivity].
  - now rewrite Hg.
Qed.

End LinuxMemoryMoreFacts.

Section LinuxMemoryProperties.
Import StdString StringSpec StringFacts Parser ParserFacts Linux LinuxMemoryFacts LinuxStream
  LinuxMemoryMoreFacts.

(** X4.  On Linux both memory queries return, for every answer of the
    system, a multiple of [1024] between [0] and [2^64 - 1024]: the parsed
    value is multiplied by [1024] in 64-bit unsigned arithmetic. *)
Theorem X4_linux_memory_multiple_of_1024 (os : OS) :
  (0 <= getWorkingSetSize os <= UINT64_MOD - 1024 /\ getWorkingSetSize os mod 1024 = 0) /\
  (0 <= getPrivateMemorySize os <= UINT64_MOD - 1024 /\ getPrivateMemorySize os mod 1024 = 0).
Proof.
  assert (forall key, 0 <= fst (memory_query key os) <= UINT64_MOD - 1024 /\
                      fst (memory_query key os) mod 1024 = 0) as H.
  { intros key. unfold memory_query. destruct (proc_self_status os) as [content|].
    - pose proof (scan_range key (read_lines content)) as Hr.
      destruct (scan key (read_lines content)) as [v rest]. cbn [fst] in *.
      unfold UINT64_MOD in *. change (2 ^ 64) with 18446744073709551616 in *.
      Z.div_mod_to_equations. lia.
    - cbn. unfold UINT64_MOD. split; [lia | reflexivity]. }
  split; apply H.
Qed.

(** X5.  A line that does not hold the key can be taken out of the status
    file (or put into it), wherever it stands, without changing what a
    memory query returns. *)
Theorem X5_lines_without_key_do_not_matter (key x : string) (l1 l2 : list string)
    (os os' : OS) (content content' : string) :
  ~ occurs key x ->
  proc_self_status os = Some content ->
  read_lines content = (l1 ++ x :: l2)%list ->
  proc_self_status os' = Some content' ->
  read_lines content' = (l1 ++ l2)%list ->
  fst (memory_query key os) = fst (memory_query key os') /\
  (key = "VmRSS:" -> getWorkingSetSize os = getWorkingSetSize os') /\
  (key = "VmSize:" -> getPrivateMemorySize os = getPrivateMemorySize os').
Proof.
  intros Hx Ho Hl Ho' Hl'.
  assert (fst (memory_query key os) = fst (memory_query key os')) as H.
  { unfold memory_query. rewrite Ho, Ho', Hl, Hl'.
    pose proof (scan_remove key x l1 l2 Hx) as Hr.
    destruct (scan key (l1 ++ x :: l2)), (scan key (l1 ++ l2)). exact Hr. }
  split; [exact H|].
  split; intros ->; [unfold getWorkingSetSize | unfold getPrivateMemorySize]; exact H.
Qed.

Lemma X5_witness :
  getWorkingSetSize (mkOS None (Some ("VmPeak: 9 kB" ++ LF ++ "Threads: 4" ++ LF
                                      ++ "VmRSS: 3 kB" ++ LF)%string))
  = getWorkingSetSize (mkOS None (Some ("VmPeak: 9 kB" ++ LF ++ "VmRSS: 3 kB" ++ LF)%string)).
Proof.
  refine (proj1 (proj2 (X5_lines_without_key_do_not_matter "VmRSS:" "Threads: 4"
                          ["VmPeak: 9 kB"] ["VmRSS: 3 kB"]
                          (mkOS None (Some ("VmPeak: 9 kB" ++ LF ++ "Threads: 4" ++ LF
                                            ++ "VmRSS: 3 kB" ++ LF)%string))
                          (mkOS None (Some ("VmPeak: 9 kB" ++ LF ++ "VmRSS: 3 kB" ++ LF)%string))
                          ("VmPeak: 9 kB" ++ LF ++ "Threads: 4" ++ LF ++ "VmRSS: 3 kB" ++ LF)%string
                          ("VmPeak: 9 kB" ++ LF ++ "VmRSS: 3 kB" ++ LF)%string
                          _ eq_refl eq_refl eq_refl eq_refl)) eq_refl).
  apply find_None_iff. reflexivity.
Defined.

(** X6.  The reading loop run on the raw text of the status file, one
    [std::getline] per iteration, ends within [length content + 1]
    iterations and returns what the memory query returns: every iteration
    that goes on has consumed at least one character. *)
Theorem X6_reading_loop_terminates (os : OS) (content : string) (fuel : nat) :
  proc_self_status os = Some content ->
  (String.length content < fuel)%nat ->
  scan_stream fuel "VmRSS:" content = Some (getWorkingSetSize os) /\
  scan_stream fuel "VmSize:" content = Some (getPrivateMemorySize os).
Proof.
  intros Ho Hlen. unfold getWorkingSetSize, getPrivateMemorySize, memory_query. rewrite Ho.
  rewrite !(scan_stream_enough fuel _ content Hlen).
  destruct (scan "VmRSS:" (read_lines content)), (scan "VmSize:" (read_lines content)).
  split; reflexivity.
Qed.

Lemma X6_witness :
  scan_stream 30 "VmRSS:" ("Pid: 1" ++ LF ++ "VmRSS: 3 kB" ++ LF)%string
  = Some (getWorkingSetSize (mkOS None (Some ("Pid: 1" ++ LF ++ "VmRSS: 3 kB" ++ LF)%string))).
Proof.
  refine (proj1 (X6_reading_loop_terminates
                   (mkOS None (Some ("Pid: 1" ++ LF ++ "VmRSS: 3 kB" ++ LF)%string))
                   ("Pid: 1" ++ LF ++ "VmRSS: 3 kB" ++ LF)%string 30 eq_refl _)).
  simpl. lia.
Defined.

End LinuxMemoryProperties.

(** ** Processor times on Windows *)

Section Win32Properties.
Import Ranges TimeFacts.

(** X7.  The 64-bit value built from a [FILETIME] loses nothing: it is
    below [2^64], its low 32 bits are the low word and the rest is the high
    word.  So two [FILETIME]s with the same 64-bit value have the same
    words. *)
Theorem X7_ticks_keeps_both_words (t : Win32.FILETIME) :
  FILETIME_in_range t ->
  0 <= Win32.ticks t < UINT64_MOD /\
  Z.land (Win32.ticks t) (Z.ones 32) = Win32.dwLowDateTime t /\
  Z.shiftr (Win32.ticks t) 32 = Win32.dwHighDateTime t /\
  (forall t', FILETIME_in_range t' -> Win32.ticks t' = Win32.ticks t ->
     Win32.dwLowDateTime t' = Win32.dwLowDateTime t /\
     Win32.dwHighDateTime t' = Win32.dwHighDateTime t).
Proof.
  intros H. pose proof (FILETIME_ticks_range t H) as Hr.
  rewrite (ticks_eq t H). split; [exact Hr|].
  assert (forall u, FILETIME_in_range u ->
            FILETIME_ticks u mod 2 ^ 32 = Win32.dwLowDateTime u /\
            FILETIME_ticks u / 2 ^ 32 = Win32.dwHighDateTime u) as Hsplit.
  { intros u [Hlo Hhi]. unfold FILETIME_ticks, is_uint32, UINT32_MOD in *. split.
    - rewrite Z.mod_add by lia. apply Z.mod_small. lia.
    - rewrite Z.div_add by lia. rewrite Z.div_small by lia. lia. }
  destruct (Hsplit t H) as [Hm Hd].
  split; [rewrite Z.land_ones by lia; exact Hm|].
  split; [rewrite Z.shiftr_div_pow2 by lia; exact Hd|].
  intros t' H' E. rewrite (ticks_eq t' H') in E.
  destruct (Hsplit t' H') as [Hm' Hd']. rewrite E in Hm', Hd'. split; congruence.
Qed.

Lemma X7_witness :
  Z.shiftr (Win32.ticks (Win32.mkFILETIME 123456 2)) 32 = 2.
Proof.
  refine (proj1 (proj2 (proj2 (X7_ticks_keeps_both_words (Win32.mkFILETIME 123456 2) _)))).
  unfold FILETIME_in_range, is_uint32, UINT32_MOD. simpl. lia.
Defined.

(** X8.  On Windows, for any two 32-bit words per [FILETIME], the three
    durations are never negative and never above [(2^64 - 1) / 10000]
    milliseconds, and the total is the sum of the two tick counts reduced
    modulo [2^64] and then divided by [10000]: a sum that passes [2^64]
    wraps around before the division. *)
Theorem X8_win32_times_bounded (os : Win32.OS) :
  FILETIME_in_range (Win32.kernelTime (Win32.call_GetProcessTimes os)) ->
  FILETIME_in_range (Win32.userTime (Win32.call_GetProcessTimes os)) ->
  0 <= Win32.getKernelProcessorTime os <= 1844674407370955 /\
  0 <= Win32.getUserProcessorTime os <= 1844674407370955 /\
  0 <= Win32.getTotalProcessorTime os <= 1844674407370955 /\
  Win32.getTotalProcessorTime os
  = ((Win32.ticks (Win32.kernelTime (Win32.call_GetProcessTimes os)) +
      Win32.ticks (Win32.userTime (Win32.call_GetProcessTimes os))) mod 2 ^ 64) / 10000.
Proof.
  intros Hk Hu.
  rewrite (Win32_kernel_eq os Hk), (Win32_user_eq os Hu), (Win32_total_eq os Hk Hu).
  rewrite (ticks_eq _ Hk), (ticks_eq _ Hu).
  pose proof (FILETIME_ticks_range _ Hk) as Rk. pose proof (FILETIME_ticks_range _ Hu) as Ru.
  unfold is_uint64, UINT64_MOD in *. change (2 ^ 64) with 18446744073709551616 in *.
  repeat split; Z.div_mod_to_equations; lia.
Qed.

Lemma X8_witness :
  0 <= Win32.getTotalProcessorTime
         (Win32.mkOS (Some (Win32.mkProcessTimes Win32.FILETIME_zero Win32.FILETIME_zero
                              (Win32.mkFILETIME 0 4294967295) (Win32.mkFILETIME 7 4294967295)))
                     None)
  <= 1844674407370955.
Proof.
  refine (proj1 (proj2 (proj2 (X8_win32_times_bounded _ _ _))));
    unfold FILETIME_in_range, is_uint32, UINT32_MOD; simpl; lia.
Defined.

(** X9.  On Windows the kernel and the user time grow with the 64-bit tick
    count, also when the low word has wrapped around and the high word has
    stepped up; so does the total as long as the sum of the two tick counts
    stays below [2^64]. *)
Theorem X9_win32_monotone_in_ticks (os1 os2 : Win32.OS) :
  ProcessTimes_in_range (Win32.call_GetProcessTimes os1) ->
  ProcessTimes_in_range (Win32.call_GetProcessTimes os2) ->
  Win32.ticks (Win32.kernelTime (Win32.call_GetProcessTimes os1))
  <= Win32.ticks (Win32.kernelTime (Win32.call_GetProcessTimes os2)) ->
  Win32.ticks (Win32.userTime (Win32.call_GetProcessTimes os1))
  <= Win32.ticks (Win32.userTime (Win32.call_GetProcessTimes os2)) ->
  Win32.getKernelProcessorTime os1 <= Win32.getKernelProcessorTime os2 /\
  Win32.getUserProcessorTime os1 <= Win32.getUserProcessorTime os2 /\
  Win32.getTotalProcessorTime os1 <= Win32.getTotalProcessorTime os2.
Proof.
  intros (Hk1 & Hu1 & Hs1) (Hk2 & Hu2 & Hs2).
  rewrite !(ticks_eq _ Hk1), !(ticks_eq _ Hk2), !(ticks_eq _ Hu1), !(ticks_eq _ Hu2).
  intros Lk Lu.
  rewrite (Win32_kernel_eq os1 Hk1), (Win32_kernel_eq os2 Hk2).
  rewrite (Win32_user_eq os1 Hu1), (Win32_user_eq os2 Hu2).
  rewrite (Win32_total_eq os1 Hk1 Hu1), (Win32_total_eq os2 Hk2 Hu2).
  pose proof (FILETIME_ticks_range _ Hk1). pose proof (FILETIME_ticks_range _ Hu1).
  pose proof (FILETIME_ticks_range _ Hk2). pose proof (FILETIME_ticks_range _ Hu2).
  unfold is_uint64 in *. rewrite !Z.mod_small by lia.
  repeat split; apply Z.div_le_mono; lia.
Qed.

Lemma X9_witness :
  Win32.getKernelProcessorTime
    (Win32.mkOS (Some (Win32.mkProcessTimes Win32.FILETIME_zero Win32.FILETIME_zero
                         (Win32.mkFILETIME 4294967295 0) (Win32.mkFILETIME 5 0))) None)
  <= Win32.getKernelProcessorTime
       (Win32.mkOS (Some (Win32.mkProcessTimes Win32.FILETIME_zero Win32.FILETIME_zero
                            (Win32.mkFILETIME 3 1) (Win32.mkFILETIME 5 0))) None).
Proof.
  refine (proj1 (X9_win32_monotone_in_ticks _ _ _ _ _ _));
    try (unfold ProcessTimes_in_range, FILETIME_in_range, FILETIME_ticks, is_uint32,
           UINT32_MOD, UINT64_MOD; simpl; lia);
    vm_compute; discriminate.
Defined.

End Win32Properties.

(** ** Processor times on Linux *)

Module LinuxTimeMoreFacts.
Import Ranges MoreSpec.

Lemma to_int64_mod (x : Z) : to_int64 (x mod UINT64_MOD) = to_int64 x.
Proof.
  unfold to_int64, UINT64_MOD. rewrite Z.add_mod_idemp_l by lia. reflexivity.
Qed.

(** The conversion of a [timeval], for seconds of either sign. *)
Lemma timeval_ms_signed (tv : Linux.timeval) :
  0 <= Linux.tv_usec tv <= LLONG_MAX ->
  LLONG_MIN <= Linux.tv_sec tv * 1000 + Linux.tv_usec tv / 1000 <= LLONG_MAX ->
  milliseconds (add64 (mul64 (to_uint64 (Linux.tv_sec tv)) 1000)
                      (to_uint64 (Linux.tv_usec tv) / 1000))
  = Linux.tv_sec tv * 1000 + Linux.tv_usec tv / 1000.
Proof.
  intros Hu Hfit. unfold milliseconds, add64, mul64.
  rewrite (to_uint64_id (Linux.tv_usec tv))
    by (unfold is_uint64, UINT64_MOD, LLONG_MAX in *; lia).
  unfold to_uint64 at 1. rewrite to_int64_mod.
  unfold to_uint64 at 1. unfold to_int64, UINT64_MOD.
  rewrite <- Z.add_assoc. rewrite Z.add_mod_idemp_l by lia.
  unfold to_uint64, UINT64_MOD. rewrite <- (Z.add_mod_idemp_l (_ * 1000)) by lia.
  rewrite Z.mul_mod_idemp_l by lia. rewrite Z.add_mod_idemp_l by lia.
  rewrite Z.add_assoc. apply to_int64_id. exact Hfit.
Qed.

(** The milliseconds of a [timeval] are its microseconds divided by 1000. *)
Lemma timeval_ms_usec (tv : Linux.timeval) :
  Linux.tv_sec tv * 1000 + Linux.tv_usec tv / 1000 = timeval_usec tv / 1000.
Proof.
  unfold timeval_usec. replace (Linux.tv_sec tv * 1000000) with (Linux.tv_sec tv * 1000 * 1000) by lia.
  rewrite Z.div_add_l by lia. reflexivity.
Qed.

End LinuxTimeMoreFacts.

Section LinuxTimeProperties.
Import Ranges MoreSpec TimeFacts LinuxTimeMoreFacts.

(** X10.  On Linux the conversion goes through unsigned 64-bit arithmetic
    and back to a signed duration, and comes out right for seconds of either
    sign: for non-negative microseconds, whenever
    [tv_sec * 1000 + tv_usec / 1000] fits a signed 64-bit duration, that
    number is what the kernel (user) query returns, negative when [tv_sec]
    is. *)
Theorem X10_linux_times_signed (os : Linux.OS) :
  let s := Linux.ru_stime (Linux.call_getrusage os) in
  let u := Linux.ru_utime (Linux.call_getrusage os) in
  (0 <= Linux.tv_usec s <= LLONG_MAX ->
   LLONG_MIN <= Linux.tv_sec s * 1000 + Linux.tv_usec s / 1000 <= LLONG_MAX ->
   Linux.getKernelProcessorTime os = Linux.tv_sec s * 1000 + Linux.tv_usec s / 1000) /\
  (0 <= Linux.tv_usec u <= LLONG_MAX ->
   LLONG_MIN <= Linux.tv_sec u * 1000 + Linux.tv_usec u / 1000 <= LLONG_MAX ->
   Linux.getUserProcessorTime os = Linux.tv_sec u * 1000 + Linux.tv_usec u / 1000).
Proof.
  cbv zeta. split; intros Hu Hfit;
    [unfold Linux.getKernelProcessorTime | unfold Linux.getUserProcessorTime];
    unfold Linux.RUsageResult_of; cbn [Linux.sysTime Linux.userTime];
    now apply timeval_ms_signed.
Qed.

Lemma X10_witness :
  Linux.getKernelProcessorTime
    (Linux.mkOS (Some (Linux.mkRusage (Linux.mkTimeval 0 0) (Linux.mkTimeval (-2) 1500))) None)
  = -2 * 1000 + 1500 / 1000.
Proof.
  refine (proj1 (X10_linux_times_signed
                   (Linux.mkOS (Some (Linux.mkRusage (Linux.mkTimeval 0 0)
                                                     (Linux.mkTimeval (-2) 1500))) None)) _ _);
    unfold LLONG_MIN, LLONG_MAX; simpl; Z.div_mod_to_equations; lia.
Defined.

(** X11.  On Linux, for times in range, each of the kernel and user times
    is the whole number of milliseconds in the microseconds reported,
    [(tv_sec * 1000000 + tv_usec) / 1000]; so a later time gives a duration
    at least as large even when [tv_usec] has gone down while [tv_sec] went
    up, and the total follows. *)
Theorem X11_linux_monotone_in_time (os1 os2 : Linux.OS) :
  rusage_in_range (Linux.call_getrusage os1) ->
  rusage_in_range (Linux.call_getrusage os2) ->
  timeval_usec (Linux.ru_stime (Linux.call_getrusage os1))
  <= timeval_usec (Linux.ru_stime (Linux.call_getrusage os2)) ->
  timeval_usec (Linux.ru_utime (Linux.call_getrusage os1))
  <= timeval_usec (Linux.ru_utime (Linux.call_getrusage os2)) ->
  Linux.getKernelProcessorTime os1
  = timeval_usec (Linux.ru_stime (Linux.call_getrusage os1)) / 1000 /\
  Linux.getUserProcessorTime os1
  = timeval_usec (Linux.ru_utime (Linux.call_getrusage os1)) / 1000 /\
  Linux.getKernelProcessorTime os1 <= Linux.getKernelProcessorTime os2 /\
  Linux.getUserProcessorTime os1 <= Linux.getUserProcessorTime os2 /\
  Linux.getTotalProcessorTime os1 <= Linux.getTotalProcessorTime os2.
Proof.
  intros H1 H2 Ls Lu.
  destruct (Linux_times_eq os1 H1) as (Ek1 & Eu1 & Et1).
  destruct (Linux_times_eq os2 H2) as (Ek2 & Eu2 & Et2).
  rewrite timeval_ms_usec in Ek1, Eu1, Ek2, Eu2.
  assert (Linux.getKernelProcessorTime os1 <= Linux.getKernelProcessorTime os2) as Mk
    by (rewrite Ek1, Ek2; apply Z.div_le_mono; lia).
  assert (Linux.getUserProcessorTime os1 <= Linux.getUserProcessorTime os2) as Mu
    by (rewrite Eu1, Eu2; apply Z.div_le_mono; lia).
  repeat split; try assumption. lia.
Qed.

Lemma X11_witness :
  Linux.getKernelProcessorTime
    (Linux.mkOS (Some (Linux.mkRusage (Linux.mkTimeval 0 5) (Linux.mkTimeval 1 999999))) None)
  <= Linux.getKernelProcessorTime
       (Linux.mkOS (Some (Linux.mkRusage (Linux.mkTimeval 0 5) (Linux.mkTimeval 2 0))) None).
Proof.
  refine (proj1 (proj2 (proj2 (X11_linux_monotone_in_time _ _ _ _ _ _))));
    try (unfold rusage_in_range, timeval_in_range, LLONG_MAX; simpl;
         Z.div_mod_to_equations; lia);
    vm_compute; discriminate.
Defined.

End LinuxTimeProperties.

(** ** Processor times on macOS *)

Module AppleMoreFacts.
Import Ranges.

Lemma init_time_base_idempotent (os : Apple.OS) (tb : Apple.mach_timebase_info_data_t) :
  Apple.init_time_base os (Apple.init_time_base os tb) = Apple.init_time_base os tb.
Proof.
  unfold Apple.init_time_base.
  destruct (Apple.denom tb =? 0) eqn:E.
  - destruct (Apple.denom (Apple.mach_timebase_info os) =? 0); reflexivity.
  - now rewrite E.
Qed.

Lemma init_time_base_cached (os : Apple.OS) (tb : Apple.mach_timebase_info_data_t) :
  Apple.denom tb <> 0 -> Apple.init_time_base os tb = tb.
Proof. intros H. unfold Apple.init_time_base. apply Z.eqb_neq in H. now rewrite H. Qed.

Lemma ProcPidRUsageResult_of_cached (os : Apple.OS) (tb : Apple.mach_timebase_info_data_t)
    (r : Apple.rusage_info_v2) :
  Apple.denom tb <> 0 ->
  exists x, Apple.ProcPidRUsageResult_of os tb r = (tb, Returns x).
Proof.
  intros H. unfold Apple.ProcPidRUsageResult_of.
  rewrite (init_time_base_cached os tb H). unfold Apple.div64.
  apply Z.eqb_neq in H. rewrite H. cbn [bind]. eexists. reflexivity.
Qed.

Lemma time_base_after_cached (calls : list Apple.OS) (tb : Apple.mach_timebase_info_data_t) :
  Apple.denom tb <> 0 -> AppleCalls.time_base_after calls tb = Returns tb.
Proof.
  intros H. induction calls as [|os calls IH]; cbn [AppleCalls.time_base_after]; [reflexivity|].
  destruct (ProcPidRUsageResult_of_cached os tb (Apple.call_proc_pid_rusage os) H) as [x ->].
  cbn [bind]. exact IH.
Qed.

Lemma ProcPidRUsageResult_of_zero (os : Apple.OS) (tb : Apple.mach_timebase_info_data_t)
    (r : Apple.rusage_info_v2) :
  Apple.denom (Apple.init_time_base os tb) = 0 ->
  snd (Apple.ProcPidRUsageResult_of os tb r) = Raises divide_error.
Proof.
  intros H. unfold Apple.ProcPidRUsageResult_of, Apple.div64. cbn [snd].
  rewrite H. reflexivity.
Qed.

(** The exact bound of a macOS duration. *)
Lemma Apple_ms_bound (tb : Apple.mach_timebase_info_data_t) (x : Z) :
  0 < Apple.denom tb -> 0 <= Apple_ms tb x <= 18446744073709.
Proof.
  intros Hd. unfold Apple_ms, Apple.NSEC_TO_MSEC_RATIO, mul64.
  pose proof (to_uint64_range (to_uint64 x * Apple.numer tb)) as Hr.
  unfold is_uint64, UINT64_MOD in Hr.
  set (a := to_uint64 (to_uint64 x * Apple.numer tb)) in *.
  assert (0 <= a / Apple.denom tb <= a) as Hq.
  { split; [apply Z.div_pos; lia|]. apply Z.div_le_upper_bound; nia. }
  split; [apply Z.div_pos; lia|].
  change 18446744073709 with ((2 ^ 64 - 1) / 1000000). apply Z.div_le_mono; lia.
Qed.

End AppleMoreFacts.

Section AppleProperties.
Import Ranges TimeFacts AppleMoreFacts.

(** X12.  On macOS a time query asked again while the system answers the
    same gives the same result and leaves the static [time_base] as the
    first call left it: the first call may write the static, and the second
    call behaves the same with the written one. *)
Theorem X12_apple_second_call_agrees (os : Apple.OS) (tb : Apple.mach_timebase_info_data_t) :
  Apple.getKernelProcessorTime os (fst (Apple.getKernelProcessorTime os tb))
  = Apple.getKernelProcessorTime os tb /\
  Apple.getUserProcessorTime os (fst (Apple.getUserProcessorTime os tb))
  = Apple.getUserProcessorTime os tb /\
  Apple.getTotalProcessorTime os (fst (Apple.getTotalProcessorTime os tb))
  = Apple.getTotalProcessorTime os tb.
Proof.
  unfold Apple.getKernelProcessorTime, Apple.getUserProcessorTime, Apple.getTotalProcessorTime,
    Apple.time_query, Apple.ProcPidRUsageResult_of.
  cbn [fst]. rewrite init_time_base_idempotent. repeat split.
Qed.

(** X13.  The static [time_base] is written by the first time query and
    never after.  A static with a non-zero denominator survives any series
    of calls, each of which returns, and what [mach_timebase_info] would
    report then has no effect on the results.  Starting from the zero
    static, a first call in which [mach_timebase_info] reports a non-zero
    denominator fixes the time base for every later call; a first call in
    which it leaves the denominator at zero divides by zero, and the series
    ends there. *)
Theorem X13_apple_time_base_written_once (tb : Apple.mach_timebase_info_data_t)
    (os : Apple.OS) (later : list Apple.OS) :
  (Apple.denom tb <> 0 ->
   AppleCalls.time_base_after later tb = Returns tb /\
   forall os', Apple.proc_pid_rusage os' = Apple.proc_pid_rusage os ->
     Apple.getKernelProcessorTime os' tb = Apple.getKernelProcessorTime os tb /\
     Apple.getUserProcessorTime os' tb = Apple.getUserProcessorTime os tb /\
     Apple.getTotalProcessorTime os' tb = Apple.getTotalProcessorTime os tb) /\
  (Apple.denom (Apple.mach_timebase_info os) <> 0 ->
   AppleCalls.time_base_after (os :: later) Apple.time_base_initial
   = Returns (Apple.mach_timebase_info os)) /\
  (Apple.denom (Apple.mach_timebase_info os) = 0 ->
   AppleCalls.time_base_after (os :: later) Apple.time_base_initial
   = Raises divide_error).
Proof.
  split; [|split].
  - intros H. split; [now apply time_base_after_cached|].
    intros os' Hr.
    unfold Apple.getKernelProcessorTime, Apple.getUserProcessorTime,
      Apple.getTotalProcessorTime, Apple.time_query, Apple.ProcPidRUsageResult_of,
      Apple.call_proc_pid_rusage.
    rewrite Hr, !(init_time_base_cached _ tb H). repeat split.
  - intros H. cbn [AppleCalls.time_base_after].
    destruct (Apple.ProcPidRUsageResult_of os Apple.time_base_initial
                (Apple.call_proc_pid_rusage os)) as [tb' r] eqn:E.
    assert (tb' = Apple.mach_timebase_info os) as ->
      by (unfold Apple.ProcPidRUsageResult_of in E; now injection E as <- _).
    assert (snd (Apple.ProcPidRUsageResult_of os Apple.time_base_initial
                   (Apple.call_proc_pid_rusage os)) = r) as Hr by now rewrite E.
    rewrite (Apple_result_returns os Apple.time_base_initial _ H) in Hr. subst r.
    cbn [bind]. now apply time_base_after_cached.
  - intros H. cbn [AppleCalls.time_base_after].
    pose proof (ProcPidRUsageResult_of_zero os Apple.time_base_initial
                  (Apple.call_proc_pid_rusage os) H) as Hr.
    destruct (Apple.ProcPidRUsageResult_of os Apple.time_base_initial
                (Apple.call_proc_pid_rusage os)) as [tb' r].
    cbn [snd] in Hr. subst r. reflexivity.
Qed.

Lemma X13_witness :
  AppleCalls.time_base_after
    [Apple.mkOS (Some (Apple.mkRusageInfo 24000000 48000000)) None (Apple.mkTimebase 125 3);
     Apple.mkOS None None (Apple.mkTimebase 1 1);
     Apple.mkOS None None (Apple.mkTimebase 0 0)]
    Apple.time_base_initial
  = Returns (Apple.mkTimebase 125 3) /\
  AppleCalls.time_base_after
    [Apple.mkOS (Some (Apple.mkRusageInfo 24000000 48000000)) None (Apple.mkTimebase 0 0);
     Apple.mkOS None None (Apple.mkTimebase 125 3)]
    Apple.time_base_initial
  = Raises divide_error.
Proof.
  split.
  - refine (proj1 (proj2 (X13_apple_time_base_written_once Apple.time_base_initial
                            (Apple.mkOS (Some (Apple.mkRusageInfo 24000000 48000000)) None
                                        (Apple.mkTimebase 125 3))
                            [Apple.mkOS None None (Apple.mkTimebase 1 1);
                             Apple.mkOS None None (Apple.mkTimebase 0 0)])) _).
    simpl. discriminate.
  - refine (proj2 (proj2 (X13_apple_time_base_written_once Apple.time_base_initial
                            (Apple.mkOS (Some (Apple.mkRusageInfo 24000000 48000000)) None
                                        (Apple.mkTimebase 0 0))
                            [Apple.mkOS None None (Apple.mkTimebase 125 3)])) _).
    reflexivity.
Defined.

(** X14.  On macOS, for a time base and tick counts in range, dividing
    first by the denominator and then by [1000000] loses nothing more than
    one division would: the kernel (user) time is the largest [k] with
    [k * denom * 1000000 <= ticks * numer]. *)
Theorem X14_apple_milliseconds_exact (os : Apple.OS) (tb : Apple.mach_timebase_info_data_t) :
  let e := Apple.init_time_base os tb in
  let r := Apple.call_proc_pid_rusage os in
  timebase_in_range e ->
  rusage_info_in_range e r ->
  exists k u,
    snd (Apple.getKernelProcessorTime os tb) = Returns k /\
    snd (Apple.getUserProcessorTime os tb) = Returns u /\
    k * (Apple.denom e * 1000000) <= Apple.ri_system_time r * Apple.numer e
      < (k + 1) * (Apple.denom e * 1000000) /\
    u * (Apple.denom e * 1000000) <= Apple.ri_user_time r * Apple.numer e
      < (u + 1) * (Apple.denom e * 1000000).
Proof.
  intros e r (Hn & Hd & Hd0) (Rs & Ru & Ms & Mu).
  assert (0 < Apple.denom e) as Hpos by (unfold is_uint32 in Hd; lia).
  destruct (Apple_queries_eq os tb Hpos) as (Ek & Eu & _). fold e r in Ek, Eu.
  rewrite Ek, Eu. cbn [snd]. do 2 eexists. split; [reflexivity|]. split; [reflexivity|].
  unfold is_uint32 in Hn.
  rewrite !Apple_ms_exact by (assumption || lia).
  rewrite !Z.div_div by lia.
  assert (0 < Apple.denom e * 1000000) as HD by lia.
  pose proof (Z.mul_div_le (Apple.ri_system_time r * Apple.numer e) _ HD).
  pose proof (Z.mul_succ_div_gt (Apple.ri_system_time r * Apple.numer e) _ HD).
  pose proof (Z.mul_div_le (Apple.ri_user_time r * Apple.numer e) _ HD).
  pose proof (Z.mul_succ_div_gt (Apple.ri_user_time r * Apple.numer e) _ HD).
  split; lia.
Qed.

Lemma X14_witness :
  exists k u,
    snd (Apple.getKernelProcessorTime
           (Apple.mkOS (Some (Apple.mkRusageInfo 24000000 48000001)) None (Apple.mkTimebase 125 3))
           Apple.time_base_initial) = Returns k /\
    snd (Apple.getUserProcessorTime
           (Apple.mkOS (Some (Apple.mkRusageInfo 24000000 48000001)) None (Apple.mkTimebase 125 3))
           Apple.time_base_initial) = Returns u /\
    k * (3 * 1000000) <= 48000001 * 125 < (k + 1) * (3 * 1000000) /\
    u * (3 * 1000000) <= 24000000 * 125 < (u + 1) * (3 * 1000000).
Proof.
  apply (X14_apple_milliseconds_exact
           (Apple.mkOS (Some (Apple.mkRusageInfo 24000000 48000001)) None (Apple.mkTimebase 125 3))
           Apple.time_base_initial).
  - repeat split; vm_compute; try reflexivity; intros; discriminate.
  - repeat split; vm_compute; try reflexivity; intros; discriminate.
Defined.

(** X15.  On macOS, for a time base with a positive denominator and any
    tick counts (also those whose product with the numerator wraps around),
    the three durations are returned, the kernel and the user time lie
    between [0] and [(2^64 - 1) / 1000000] milliseconds, and the total is
    exactly their sum. *)
Theorem X15_apple_times_bounded (os : Apple.OS) (tb : Apple.mach_timebase_info_data_t) :
  0 < Apple.denom (Apple.init_time_base os tb) ->
  exists k u,
    snd (Apple.getKernelProcessorTime os tb) = Returns k /\
    snd (Apple.getUserProcessorTime os tb) = Returns u /\
    snd (Apple.getTotalProcessorTime os tb) = Returns (k + u) /\
    0 <= k <= 18446744073709 /\
    0 <= u <= 18446744073709.
Proof.
  intros Hpos. destruct (Apple_queries_eq os tb Hpos) as (-> & -> & ->). cbn [snd].
  do 2 eexists. repeat split; apply Apple_ms_bound; exact Hpos.
Qed.

Lemma X15_witness :
  exists k u,
    snd (Apple.getKernelProcessorTime
           (Apple.mkOS (Some (Apple.mkRusageInfo 18446744073709551615 18446744073709551615))
                       None (Apple.mkTimebase 125 3))
           Apple.time_base_initial) = Returns k /\
    snd (Apple.getUserProcessorTime
           (Apple.mkOS (Some (Apple.mkRusageInfo 18446744073709551615 18446744073709551615))
                       None (Apple.mkTimebase 125 3))
           Apple.time_base_initial) = Returns u /\
    snd (Apple.getTotalProcessorTime
           (Apple.mkOS (Some (Apple.mkRusageInfo 18446744073709551615 18446744073709551615))
                       None (Apple.mkTimebase 125 3))
           Apple.time_base_initial) = Returns (k + u) /\
    0 <= k <= 18446744073709 /\
    0 <= u <= 18446744073709.
Proof.
  apply (X15_apple_times_bounded
           (Apple.mkOS (Some (Apple.mkRusageInfo 18446744073709551615 18446744073709551615))
                       None (Apple.mkTimebase 125 3))
           Apple.time_base_initial).
  reflexivity.
Defined.

End AppleProperties.
